(** * onemcp: the tool relevance search subsystem

    A shallow embedding of the Go sources
      - [internal/llmsearch/codex_search_store.go]
        ([CodexSearchStore], the External-Rerank strategy, and
        [MockSearchStore], the Lexical strategy), and
      - [internal/vectorstore/glove_embedder.go]
        ([GloVeEmbedder], the Static Embedding Model),
    followed by the properties the specification states about them.

    Conventions of the embedding.
      - Go's [int] is [Z] (64 bits); no computation below can leave the
        range of a 64-bit integer (scores are bounded by six times the
        number of query words), so no wrap-around is written.
      - A Go function returning [(T, error)] returns a [result T]:
        [Ok v] is [(v, nil)], [Err e] is a non-nil error, and [Panic p]
        is a run-time panic unwinding the call, or the fatal error of
        the run time that ends the process.
      - The functions [ToLower], [Fields] and [FieldsFunc] of Go's
        package [strings] decode UTF-8 and consult the Unicode tables.
        They are a parameter of the embedding ([strings.Lib]); module
        [ASCII] gives them on ASCII text, to run the model there.
      - Where [make] is called with a size that is an input of the
        program ([topK], the dimension), the checks of the run time are
        modelled ([Runtime]).  The other slices are sized by data the
        program already holds.
      - [[]*tools.Tool] is a [list Tool]: the tools are never mutated by
        the search stores, so a pointer is represented by the record it
        points to.
      - Calls to the logger have no influence on any result and are left
        out. *)

From Stdlib Require Import ZArith Lia Ascii String.
From Stdlib Require Import Floats.SpecFloat.
From stdpp Require Import base option list sorting gmap strings.

Open Scope string_scope.
Open Scope list_scope.
Open Scope Z_scope.

(** ** Results of fallible Go code *)

Inductive panic : Type :=
| MakesliceLenOutOfRange          (* makeslice: len out of range *)
| MakesliceCapOutOfRange          (* makeslice: cap out of range *)
| OutOfMemory                     (* fatal error: out of memory *)
| IndexOutOfRange (i : Z) (len : Z). (* v[i] with i outside [0, len) *)

Inductive result (A : Type) : Type :=
| Ok (a : A)
| Err (e : string)
| Panic (p : panic).

Arguments Ok {A} a.
Arguments Err {A} e.
Arguments Panic {A} p.

#[global] Instance result_ret : MRet result := fun A a => Ok a.

#[global] Instance result_bind : MBind result := fun A B f m =>
  match m with
  | Ok a => f a
  | Err e => Err e
  | Panic p => Panic p
  end.

(** [fmt.Errorf("<prefix>: %w", err)] *)
Definition wrap (prefix : string) (e : string) : string :=
  prefix +:+ ": " +:+ e.

(** ** The run time behind [make]

    [runtime.makeslice] refuses a length or a capacity that is negative
    or needs more than [maxAlloc] bytes, with a panic; otherwise it asks
    the allocator, which ends the process when the memory cannot be
    had.  [maxAlloc] is [1 << heapAddrBits], and [heapAddrBits] is at
    least 32 on every platform whose [int] has 64 bits (48 on
    linux/amd64).  Objects of at most [maxSmallSize] bytes come from the
    size classes of the allocator and are taken to be available; for a
    larger object the machine decides ([grants]). *)

Class Runtime : Type := mkRuntime {
  extraAddrBits : N;          (* heapAddrBits - 32 *)
  grants        : Z -> bool;  (* can a large object of that many bytes be had *)
}.

Definition maxSmallSize : Z := 32768.

Definition ptrSize : Z := 8.      (* the bytes of a pointer *)
Definition float32Size : Z := 4.  (* the bytes of a float32 *)

Section Make.

Context {rt : Runtime}.

Definition maxAlloc : Z := 2 ^ (32 + Z.of_N extraAddrBits).

(** [makeslice(et, len, cap)], for an element type of [size] bytes. *)
Definition makeslice (size len cap : Z) : result unit :=
  let mem := size * cap in
  if (cap <? 0) || (maxAlloc <? mem) || (len <? 0) || (cap <? len) then
    if (len <? 0) || (maxAlloc <? size * len)
    then Panic MakesliceLenOutOfRange
    else Panic MakesliceCapOutOfRange
  else if (mem <=? maxSmallSize) || grants mem then Ok tt
  else Panic OutOfMemory.

(** The run time makes a slice of capacity [cap] for elements of [size]
    bytes. *)
Definition fits (size cap : Z) : bool :=
  (0 <=? cap) && (size * cap <=? maxAlloc) &&
  ((size * cap <=? maxSmallSize) || grants (size * cap)).

(** [make([]*T, 0, cap)] *)
Definition make_cap (A : Type) (cap : Z) : result (list A) :=
  _ ← makeslice ptrSize 0 cap; Ok [].

End Make.

(** ** Go's [strings] package

    Strings are sequences of bytes.  [Contains] compares bytes; the
    functions that depend on the Unicode tables are the fields of
    [Lib]. *)

Module strings.

(** A rune is a Unicode code point. *)
Definition rune : Type := Z.

Class Lib : Type := mkLib {
  ToLower    : string -> string;
  Fields     : string -> list string;
  FieldsFunc : string -> (rune -> bool) -> list string;
}.

Fixpoint HasPrefix (s prefix : string) : bool :=
  match prefix, s with
  | EmptyString, _ => true
  | String a p', String b s' => Ascii.eqb a b && HasPrefix s' p'
  | String _ _, EmptyString => false
  end.

Fixpoint Contains (s substr : string) : bool :=
  HasPrefix s substr ||
  match s with
  | EmptyString => false
  | String _ s' => Contains s' substr
  end.

End strings.

(** ** The [strings] functions on ASCII text

    On a string of bytes below 128 Go's [ToLower], [Fields] and
    [FieldsFunc] are the functions below (a byte is a rune there).  A
    byte above 127 is kept as it is and counts neither as a letter nor
    as white space. *)

Module ASCII.

Definition is_upper (c : ascii) : bool :=
  let n := nat_of_ascii c in (65 <=? n)%nat && (n <=? 90)%nat.

Definition lower_byte (c : ascii) : ascii :=
  if is_upper c then ascii_of_nat (nat_of_ascii c + 32) else c.

Fixpoint ToLower (s : string) : string :=
  match s with
  | EmptyString => EmptyString
  | String c s' => String (lower_byte c) (ToLower s')
  end.

(** The ASCII white space of [strings.Fields]:
    ['\t'], ['\n'], ['\v'], ['\f'], ['\r'], [' ']. *)
Definition isSpace (c : ascii) : bool :=
  let n := nat_of_ascii c in
  ((9 <=? n)%nat && (n <=? 13)%nat) || (n =? 32)%nat.

(** One right-to-left pass: the field that is open at the head of the
    string, and the fields completed after it. *)
Fixpoint fields_from (f : ascii -> bool) (s : string) : string * list string :=
  match s with
  | EmptyString => (EmptyString, [])
  | String c s' =>
      let '(cur, rest) := fields_from f s' in
      if f c then
        (EmptyString, match cur with EmptyString => rest | _ => cur :: rest end)
      else (String c cur, rest)
  end.

(** [strings.FieldsFunc(s, f)]: the maximal runs of characters that do
    not satisfy [f]. *)
Definition FieldsFunc (s : string) (f : ascii -> bool) : list string :=
  let '(cur, rest) := fields_from f s in
  match cur with EmptyString => rest | _ => cur :: rest end.

Definition Fields (s : string) : list string := FieldsFunc s isSpace.

(** The byte as a rune. *)
Definition code (c : ascii) : strings.rune := Z.of_nat (nat_of_ascii c).

Definition lib : strings.Lib :=
  {| strings.ToLower := ToLower;
     strings.Fields := Fields;
     strings.FieldsFunc := fun s f => FieldsFunc s (fun c => f (code c)) |}.

End ASCII.

(** ** Tools and their metadata

    [tools.Tool] and [tools.ToolMetadata] are declared in package
    [internal/tools]; the search stores read the fields [Name],
    [Category], [Description] and [InputSchema] of a tool, the last
    through a type assertion, so [InputSchema] has the dynamic type
    [any]. *)

Set Warnings "-register-all".

(** A JSON document, as [encoding/json] produces it. *)
Inductive JSON : Type :=
| JNull
| JBool (b : bool)
| JNumber (x : spec_float)
| JString (s : string)
| JArray (xs : list JSON)
| JObject (fields : gmap string JSON).

(** A dynamic Go value held in an [any].  [GoMap] is the dynamic type
    [map[string]any] and [GoSlice] is [[]any]; [GoOther] stands for a
    value of any other dynamic type ([map[string]string], a struct, a
    channel, ...) and carries the document [json.Marshal] encodes it to,
    when it encodes it at all. *)
Inductive GoValue : Type :=
| GoNil
| GoBool (b : bool)
| GoFloat64 (x : spec_float)
| GoString (s : string)
| GoSlice (xs : list GoValue)
| GoMap (m : gmap string GoValue)
| GoOther (enc : option JSON).

Record Tool : Type := mkTool {
  Name        : string;
  Category    : string;
  Description : string;
  InputSchema : GoValue;
}.

(** Modelled from the spec: the declaration of [tools.ToolMetadata] is
    not among the sources.  Section 3 of the specification gives its
    fields, [Name], [Category], [Description] and [Parameters], the last
    one a string-keyed mapping that is left out when it was never set.
    A Go map field that was never assigned is [nil]: [None] here. *)
Record ToolMetadata : Type := mkToolMetadata {
  mdName        : string;
  mdCategory    : string;
  mdDescription : string;
  mdParameters  : option (gmap string GoValue);
}.

(** [json.Marshal] on a dynamic value: a float that is not finite, and
    a value of a type with no JSON form, are refused. *)
Fixpoint encodeValue (v : GoValue) : option JSON :=
  match v with
  | GoNil => Some JNull
  | GoBool b => Some (JBool b)
  | GoFloat64 x =>
      match x with
      | S754_nan | S754_infinity _ => None
      | _ => Some (JNumber x)
      end
  | GoString s => Some (JString s)
  | GoSlice xs => JArray <$> mapM encodeValue xs
  | GoMap m =>
      let encoded := encodeValue <$> m in
      if bool_decide (map_Forall (fun _ o => is_Some o) encoded)
      then Some (JObject (omap id encoded)) else None
  | GoOther enc => enc
  end.

Definition encodeMap (m : gmap string GoValue) : option JSON :=
  encodeValue (GoMap m).

(** Modelled from the spec: the field names of one serialized
    [ToolMetadata] entry (the struct tags are declared with the type).
    The entry is an object with the three descriptive fields, and with
    [Parameters] when the metadata carries a schema. *)
Definition encodeMetadata (md : ToolMetadata) : option JSON :=
  let base : gmap string JSON :=
    {[ "Name" := JString (mdName md);
       "Category" := JString (mdCategory md);
       "Description" := JString (mdDescription md) ]} in
  match mdParameters md with
  | None => Some (JObject base)
  | Some m => (fun j => JObject (<["Parameters" := j]> base)) <$> encodeMap m
  end.

(** [json.Marshal(toolSchemas)] for [toolSchemas []tools.ToolMetadata]. *)
Definition json_Marshal (mds : list ToolMetadata) : result JSON :=
  match mapM encodeMetadata mds with
  | Some js => Ok (JArray js)
  | None => Err "json: unsupported value"
  end.

(** ** Loops

    [for_loop lo hi body s] is [for j := lo; j < hi; j++ { s = body j s }]. *)

Fixpoint for_steps {S : Type} (n : nat) (j : nat) (body : nat -> S -> S) (s : S) : S :=
  match n with
  | O => s
  | Datatypes.S n' => for_steps n' (Datatypes.S j) body (body j s)
  end.

Definition for_loop {S : Type} (lo hi : nat) (body : nat -> S -> S) (s : S) : S :=
  for_steps (hi - lo) lo body s.

(** ** The Lexical strategy: [MockSearchStore] *)

Module Mock.

Record MockSearchStore : Type := mkStore {
  tools : list Tool;
}.

Record scoredTool : Type := mkScored {
  tool  : Tool;
  score : Z;
}.

Definition NewMockSearchStore : MockSearchStore :=
  {| tools := [] |}.

Definition BuildFromTools (s : MockSearchStore) (allTools : list Tool)
  : MockSearchStore * result unit :=
  ({| tools := allTools |}, Ok tt).

Definition GetToolCount (s : MockSearchStore) : Z :=
  Z.of_nat (length (tools s)).

(** The body of [for _, word := range queryWords]. *)
Definition scoreWord (nameLower descLower categoryLower : string)
    (score : Z) (word : string) : Z :=
  let score := if strings.Contains nameLower word then score + 3 else score in
  let score := if strings.Contains descLower word then score + 2 else score in
  let score := if strings.Contains categoryLower word then score + 1 else score in
  score.

Section Search.

Context {rt : Runtime} {lib : strings.Lib}.

Definition scoreTool (queryWords : list string) (t : Tool) : Z :=
  let nameLower := strings.ToLower (Name t) in
  let descLower := strings.ToLower (Description t) in
  let categoryLower := strings.ToLower (Category t) in
  foldl (scoreWord nameLower descLower categoryLower) 0 queryWords.

(** The body of [for _, tool := range s.tools]. *)
Definition scoreStep (query : string) (queryWords : list string)
    (scored : list scoredTool) (t : Tool) : list scoredTool :=
  let score := scoreTool queryWords t in
  if (0 <? score) || bool_decide (query = "")
  then scored ++ [mkScored t score]
  else scored.

End Search.

(** [if scored[j].score > scored[i].score { swap }] *)
Definition swapIfGreater (i j : nat) (scored : list scoredTool) : list scoredTool :=
  match scored !! i, scored !! j with
  | Some si, Some sj =>
      if score si <? score sj then <[j := si]> (<[i := sj]> scored) else scored
  | _, _ => scored
  end.

(** [for j := i + 1; j < len(scored); j++ { ... }] *)
Definition innerLoop (i : nat) (scored : list scoredTool) : list scoredTool :=
  for_loop (i + 1) (length scored) (fun j scored => swapIfGreater i j scored) scored.

(** [for i := 0; i < len(scored); i++ { ... }] *)
Definition sortByScore (scored : list scoredTool) : list scoredTool :=
  for_loop 0 (length scored) (fun i scored => innerLoop i scored) scored.

(** [for i := 0; i < len(scored) && i < topK; i++ { append scored[i].tool }],
    entered at index [i] with [scored[i:]] left to visit. *)
Fixpoint topResults (rest : list scoredTool) (i topK : Z) : list Tool :=
  match rest with
  | [] => []
  | st :: rest' =>
      if i <? topK then tool st :: topResults rest' (i + 1) topK else []
  end.

Definition Search {rt : Runtime} {lib : strings.Lib}
    (s : MockSearchStore) (query : string) (topK : Z)
  : result (list Tool) :=
  if bool_decide (length (tools s) = 0%nat) then Ok [] else
  let queryLower := strings.ToLower query in
  let queryWords := strings.Fields queryLower in
  let scored := foldl (scoreStep query queryWords) [] (tools s) in
  let scored := sortByScore scored in
  results ← make_cap Tool topK;
  Ok (results ++ topResults scored 0 topK).

End Mock.

(** ** The External-Rerank strategy: [CodexSearchStore] *)

Module Codex.

(** Modelled from the spec: [CodexSearcher] is not among the sources.
    Its [SearchTools] is the external ranking collaborator of Section 6:
    given the query, the serialized catalog and [topK], it answers with
    an ordered list of tool names, or fails. *)
Record CodexSearcher : Type := mkSearcher {
  SearchTools : string -> option JSON -> Z -> result (list string);
}.

Record CodexSearchStore : Type := mkStore {
  searcher : CodexSearcher;
  tools    : list Tool;
  schemas  : option JSON;   (* the cached payload; [None] is the nil slice *)
}.

Definition NewCodexSearchStore (searcher : CodexSearcher) : CodexSearchStore :=
  {| searcher := searcher; tools := []; schemas := None |}.

(** The body of [for i, tool := range allTools]. *)
Definition toMetadata (t : Tool) : ToolMetadata :=
  let metadata :=
    {| mdName := Name t; mdCategory := Category t;
       mdDescription := Description t; mdParameters := None |} in
  match InputSchema t with
  | GoMap schemaMap =>
      {| mdName := mdName metadata; mdCategory := mdCategory metadata;
         mdDescription := mdDescription metadata;
         mdParameters := Some schemaMap |}
  | _ => metadata
  end.

Definition BuildFromTools (s : CodexSearchStore) (allTools : list Tool)
  : CodexSearchStore * result unit :=
  let s := {| searcher := searcher s; tools := allTools; schemas := schemas s |} in
  let toolSchemas := toMetadata <$> allTools in
  match json_Marshal toolSchemas with
  | Err e => (s, Err (wrap "failed to marshal tool schemas" e))
  | Panic p => (s, Panic p)
  | Ok encoded =>
      ({| searcher := searcher s; tools := tools s; schemas := Some encoded |}, Ok tt)
  end.

Definition buildToolMap (ts : list Tool) : gmap string Tool :=
  foldl (fun toolMap t => <[Name t := t]> toolMap) ∅ ts.

(** The body of [for _, name := range toolNames]. *)
Definition lookupStep (toolMap : gmap string Tool)
    (results : list Tool) (name : string) : list Tool :=
  match toolMap !! name with
  | Some t => results ++ [t]
  | None => results
  end.

Definition Search (s : CodexSearchStore) (query : string) (topK : Z)
  : result (list Tool) :=
  if bool_decide (length (tools s) = 0%nat) then Ok [] else
  match SearchTools (searcher s) query (schemas s) topK with
  | Err e => Err (wrap "codex search failed" e)
  | Panic p => Panic p
  | Ok toolNames =>
      let toolMap := buildToolMap (tools s) in
      Ok (foldl (lookupStep toolMap) [] toolNames)
  end.

Definition GetToolCount (s : CodexSearchStore) : Z :=
  Z.of_nat (length (tools s)).

End Codex.

(** ** The Static Embedding Model: [GloVeEmbedder] *)

(** [for j := lo; ...] with a body that may panic. *)
Fixpoint for_stepsM {S : Type} (n : nat) (j : nat)
    (body : nat -> S -> result S) (s : S) : result S :=
  match n with
  | O => Ok s
  | Datatypes.S n' => s' ← body j s; for_stepsM n' (Datatypes.S j) body s'
  end.

Module GloVe.

(** Go's [float32]: IEEE 754 binary32, 24 bits of precision. *)
Definition float32 : Type := spec_float.
Definition f32_zero : float32 := S754_zero false.
Definition f32_add : float32 -> float32 -> float32 := SFadd 24 128.
Definition f32_div : float32 -> float32 -> float32 := SFdiv 24 128.
(** The conversion [float32(n)] of an [int]. *)
Definition f32_of_int (n : Z) : float32 := binary_normalize 24 128 n 0 false.

(** [make([]float32, n)] *)
Definition make_f32 {rt : Runtime} (n : Z) : result (list float32) :=
  _ ← makeslice float32Size n n; Ok (replicate (Z.to_nat n) f32_zero).

Record ModelConfig : Type := mkConfig {
  url      : string;
  filename : string;
  cfg_dim  : Z;
}.

Definition gloveModels : gmap string ModelConfig :=
  list_to_map
    [ ("6B.50d",  mkConfig "http://nlp.stanford.edu/data/glove.6B.zip" "glove.6B.50d.txt" 50);
      ("6B.100d", mkConfig "http://nlp.stanford.edu/data/glove.6B.zip" "glove.6B.100d.txt" 100);
      ("6B.200d", mkConfig "http://nlp.stanford.edu/data/glove.6B.zip" "glove.6B.200d.txt" 200);
      ("6B.300d", mkConfig "http://nlp.stanford.edu/data/glove.6B.zip" "glove.6B.300d.txt" 300) ].

Record GloVeEmbedder : Type := mkEmbedder {
  vectors : gmap string (list float32);
  dim     : Z;
}.

(** What a [bufio.Scanner] delivers from an opened file: the lines in
    order, then the value of [scanner.Err()] (a read error, or a line
    longer than the buffer). *)
Record ScannedFile : Type := mkScanned {
  lines   : list string;
  scanErr : option string;
}.

(** The operating system as the constructor sees it.  [Download] is
    the outcome of [downloadAndExtractGloVe] (fetch the archive, unpack
    one member into the cache directory, remove the archive); [Open]
    gives the file found at a path once that step is over. *)
Record OS : Type := mkOS {
  MkdirAll : string -> option string;
  Join     : string -> string -> string;
  NotExist : string -> bool;
  Download : string -> string -> string -> option string;
  Open     : string -> result ScannedFile;
}.

Section Embedder.

Context {rt : Runtime} {lib : strings.Lib}.

(** [strconv.ParseFloat(s, 32)] followed by the conversion to
    [float32]; [None] when the error it returns is not nil. *)
Variable ParseFloat32 : string -> option float32.

(** [normalize] of the same package, the L2 normalization of the
    vector math utilities; it is not part of this file. *)
Variable normalize : list float32 -> list float32.

(** The body of [for i, s := range parts[1:]], entered at index [i]. *)
Fixpoint parseFields (i : nat) (fields : list string) (vec : list float32)
  : list float32 :=
  match fields with
  | [] => vec
  | s :: fields' =>
      match ParseFloat32 s with
      | None => parseFields (S i) fields' vec
      | Some val => parseFields (S i) fields' (<[i := val]> vec)
      end
  end.

(** The body of [for scanner.Scan()]. *)
Definition parseLine (vectors : gmap string (list float32)) (line : string)
  : gmap string (list float32) :=
  let parts := strings.Fields line in
  if bool_decide (length parts < 2)%nat then vectors else
  match parts with
  | [] => vectors
  | word :: fields =>
      let vec := replicate (length parts - 1) f32_zero in
      <[word := parseFields 0 fields vec]> vectors
  end.

Definition loadGloVeVectors (os : OS) (path : string)
  : result (gmap string (list float32)) :=
  file ← Open os path;
  let vectors := foldl parseLine ∅ (lines file) in
  match scanErr file with
  | Some err => Err err
  | None => Ok vectors
  end.

Definition NewGloVeEmbedder (os : OS) (modelName cacheDir : string)
  : result GloVeEmbedder :=
  match gloveModels !! modelName with
  | None =>
      Err ("unknown GloVe model: " +:+ modelName +:+
           " (available: 6B.50d, 6B.100d, 6B.200d, 6B.300d)")
  | Some modelConfig =>
      match MkdirAll os cacheDir with
      | Some err => Err (wrap "failed to create cache directory" err)
      | None =>
          let modelPath := Join os cacheDir (filename modelConfig) in
          let fetched :=
            if NotExist os modelPath
            then Download os (url modelConfig) (filename modelConfig) cacheDir
            else None in
          match fetched with
          | Some err => Err (wrap "failed to download GloVe model" err)
          | None =>
              match loadGloVeVectors os modelPath with
              | Err err => Err (wrap "failed to load GloVe vectors" err)
              | Panic p => Panic p
              | Ok vectors =>
                  Ok {| vectors := vectors; dim := cfg_dim modelConfig |}
              end
          end
      end
  end.

(** ['a'] is 97, ['z'] 122, ['0'] 48 and ['9'] 57. *)
Definition isSeparator (r : strings.rune) : bool :=
  negb (((97 <=? r) && (r <=? 122)) || ((48 <=? r) && (r <=? 57))).

Definition stopWords : gset string :=
  list_to_set
    [ "a"; "an"; "and"; "are"; "as"; "at"; "be"; "by"; "for"; "from";
      "has"; "he"; "in"; "is"; "it"; "its"; "of"; "on"; "that"; "the";
      "this"; "to"; "was"; "will"; "with" ].

Definition keepWord (word : string) : bool :=
  (1 <? String.length word)%nat && negb (bool_decide (word ∈ stopWords)).

Definition tokenize (text : string) : list string :=
  let text := strings.ToLower text in
  let words := strings.FieldsFunc text isSeparator in
  filter (fun word => keepWord word = true) words.

(** [embedding[i] += vec[i]] *)
Definition addAt (vec : list float32) (i : nat) (embedding : list float32)
  : result (list float32) :=
  match embedding !! i, vec !! i with
  | Some x, Some y => Ok (<[i := f32_add x y]> embedding)
  | None, _ => Panic (IndexOutOfRange (Z.of_nat i) (Z.of_nat (length embedding)))
  | _, None => Panic (IndexOutOfRange (Z.of_nat i) (Z.of_nat (length vec)))
  end.

(** The body of [for _, word := range words], on the pair of the
    running sum and the count of the words found. *)
Fixpoint accumulate (e : GloVeEmbedder) (words : list string)
    (embedding : list float32) (count : Z) : result (list float32 * Z) :=
  match words with
  | [] => Ok (embedding, count)
  | word :: words' =>
      match vectors e !! word with
      | Some vec =>
          embedding ← for_stepsM (Z.to_nat (dim e)) 0 (addAt vec) embedding;
          accumulate e words' embedding (count + 1)
      | None => accumulate e words' embedding count
      end
  end.

Definition Generate (e : GloVeEmbedder) (text : string) : result (list float32) :=
  let words := tokenize text in
  if bool_decide (length words = 0%nat) then make_f32 (dim e) else
  embedding ← make_f32 (dim e);
  '(embedding, count) ← accumulate e words embedding 0;
  let embedding :=
    if 0 <? count
    then (fun x => f32_div x (f32_of_int count)) <$> embedding
    else embedding in
  Ok (normalize embedding).

Definition Dimension (e : GloVeEmbedder) : Z := dim e.

Definition GetVocabularySize (e : GloVeEmbedder) : Z :=
  Z.of_nat (size (vectors e)).

End Embedder.

End GloVe.

(** ** The search subsystem contract

    The aggregator holds one of the strategies behind the interface
    [BuildFromTools] / [Search] / [GetToolCount]. *)

Inductive SearchStore : Type :=
| LexicalStore (s : Mock.MockSearchStore)
| RerankStore (s : Codex.CodexSearchStore).

Definition BuildFromTools (st : SearchStore) (allTools : list Tool)
  : SearchStore * result unit :=
  match st with
  | LexicalStore s =>
      let '(s', r) := Mock.BuildFromTools s allTools in (LexicalStore s', r)
  | RerankStore s =>
      let '(s', r) := Codex.BuildFromTools s allTools in (RerankStore s', r)
  end.

Definition Search {rt : Runtime} {lib : strings.Lib}
    (st : SearchStore) (query : string) (topK : Z)
  : result (list Tool) :=
  match st with
  | LexicalStore s => Mock.Search s query topK
  | RerankStore s => Codex.Search s query topK
  end.

Definition GetToolCount (st : SearchStore) : Z :=
  match st with
  | LexicalStore s => Mock.GetToolCount s
  | RerankStore s => Codex.GetToolCount s
  end.

(** ** The lexical ranking, as the specification words it (Section 4.2) *)

Module LexicalSpec.

Section Ranking.

Context {lib : strings.Lib}.

(** The query, split into whitespace-delimited lowercase words. *)
Definition words (query : string) : list string :=
  strings.Fields (strings.ToLower query).

(** The number of query words contained in the lowercased field. *)
Definition matches (field : string) (ws : list string) : Z :=
  Z.of_nat (length (filter (fun w => strings.Contains (strings.ToLower field) w = true) ws)).

Definition score (ws : list string) (t : Tool) : Z :=
  3 * matches (Name t) ws + 2 * matches (Description t) ws + 1 * matches (Category t) ws.

Definition eligible (query : string) (t : Tool) : Prop :=
  0 < score (words query) t \/ query = "".

#[global] Instance eligible_dec query t : Decision (eligible query t).
Proof. unfold eligible. apply _. Defined.

(** The candidate set, in catalog order. *)
Definition candidates (query : string) (ts : list Tool) : list Tool :=
  filter (eligible query) ts.

(** Most relevant first. *)
Definition descending (query : string) (ts : list Tool) : Prop :=
  StronglySorted (fun a b => score (words query) b <= score (words query) a) ts.

End Ranking.

End LexicalSpec.

(** The records [Search] sorts, for a query: each candidate with its
    score; and the ranking [Search] truncates. *)
Definition scoredOf {lib : strings.Lib} (query : string) (t : Tool) : Mock.scoredTool :=
  Mock.mkScored t (LexicalSpec.score (LexicalSpec.words query) t).

Definition ranked {lib : strings.Lib} (query : string) (ts : list Tool) : list Tool :=
  Mock.tool <$> Mock.sortByScore (scoredOf query <$> LexicalSpec.candidates query ts).

(** Position [p] of [a] holds a score no smaller than any score at a
    position in the open interval from [p] to [hi]. *)
Definition dominates (a : list Mock.scoredTool) (p hi : nat) : Prop :=
  forall q x y, (p < q < hi)%nat ->
    a !! p = Some x -> a !! q = Some y -> Mock.score y <= Mock.score x.

(** ** The external ranking, as the specification words it (Section 4.4) *)

Module RerankSpec.

(** The tool of the catalog that carries a name. *)
Definition toolNamed (ts : list Tool) (name : string) : option Tool :=
  List.find (fun t => bool_decide (Name t = name)) ts.

(** The collaborator's names, in its order, restricted to the names
    present in the catalog and mapped back to the tools. *)
Definition inOrder (ts : list Tool) (names : list string) : list Tool :=
  omap (toolNamed ts) names.

(** Modelled from the spec: the contract of the external ranking
    collaborator, which is not among the sources.  Section 6: it
    returns an ordered list of up to [topK] tool names. *)
Definition keepsToTopK (c : Codex.CodexSearcher) : Prop :=
  forall query payload topK names,
    Codex.SearchTools c query payload topK = Ok names ->
    (length names <= Z.to_nat (Z.max topK 0))%nat.

(** A tool whose schema [json.Marshal] accepts: only a schema that is a
    string-keyed mapping is ever handed to it. *)
Definition encodable (t : Tool) : Prop :=
  match InputSchema t with
  | GoMap m => is_Some (encodeMap m)
  | _ => True
  end.

(** What one serialized entry holds for a tool: the three descriptive
    fields, and [Parameters] exactly for a schema that is a string-keyed
    mapping. *)
Definition entryFor (t : Tool) (entry : JSON) : Prop :=
  exists fields,
    entry = JObject fields /\
    fields !! "Name" = Some (JString (Name t)) /\
    fields !! "Category" = Some (JString (Category t)) /\
    fields !! "Description" = Some (JString (Description t)) /\
    (is_Some (fields !! "Parameters") <-> exists m, InputSchema t = GoMap m).

End RerankSpec.

(** ** The vocabulary file, as the specification words it (Section 4.5) *)

Module VectorFileSpec.

Section Parser.

Context {lib : strings.Lib}.

Variable ParseFloat32 : string -> option GloVe.float32.

(** One value per field: the parsed number, or zero where parsing fails. *)
Definition parsedVector (fields : list string) : list GloVe.float32 :=
  (fun s => default GloVe.f32_zero (ParseFloat32 s)) <$> fields.

(** The vocabulary entry of a line: none for a line of fewer than two
    fields. *)
Definition entryOf (line : string) : option (string * list GloVe.float32) :=
  match strings.Fields line with
  | word :: (_ :: _) as fields => Some (word, parsedVector fields)
  | _ => None
  end.

(** The table: the entries in file order, a later line replacing an
    earlier one for the same word. *)
Definition vocabulary (lines : list string) : gmap string (list GloVe.float32) :=
  foldl (fun m e => <[e.1 := e.2]> m) ∅ (omap entryOf lines).

End Parser.

End VectorFileSpec.

(** The all-zero vector of a dimension. *)
Definition zeroVector (d : Z) : list GloVe.float32 :=
  replicate (Z.to_nat d) GloVe.f32_zero.

(** ** Vector math utilities *)

Module VectorMath.

Definition f32_mul : GloVe.float32 -> GloVe.float32 -> GloVe.float32 := SFmul 24 128.
Definition f32_sqrt : GloVe.float32 -> GloVe.float32 := SFsqrt 24 128.

(** Modelled from the spec: [normalize] is not among the sources.
    Section 4.5: divide by the vector's Euclidean norm if nonzero, else
    return the all-zero vector unchanged. *)
Definition norm (v : list GloVe.float32) : GloVe.float32 :=
  f32_sqrt (foldl (fun acc x => GloVe.f32_add acc (f32_mul x x)) GloVe.f32_zero v).

Definition normalize (v : list GloVe.float32) : list GloVe.float32 :=
  let n := norm v in
  if SFeqb n GloVe.f32_zero then v else (fun x => GloVe.f32_div x n) <$> v.

End VectorMath.

(** ** Concrete catalogs, collaborators and vector files *)

Module Examples.

(** linux/amd64, with large objects to be had up to one GiB. *)
Definition machine : Runtime :=
  {| extraAddrBits := 16; grants := fun mem => mem <=? 2 ^ 30 |}.

Definition deployTool : Tool :=
  mkTool "deploy-tool" "infra" "Deploys a service"
    (GoMap {[ "type" := GoString "object" ]}).

Definition otherTool : Tool :=
  mkTool "other" "deploy" "" (GoString "not a mapping").

Definition fooTool : Tool := mkTool "foo" "" "" GoNil.

Definition tools : list Tool := [deployTool; otherTool].

(** A collaborator that answers with three names whatever [topK] is,
    one of them unknown to the catalog. *)
Definition talkative : Codex.CodexSearcher :=
  Codex.mkSearcher (fun _ _ _ => Ok ["other"; "ghost"; "deploy-tool"]).

Definition rerankStore : SearchStore :=
  (BuildFromTools (RerankStore (Codex.NewCodexSearchStore talkative)) tools).1.

Definition lexicalStore : SearchStore :=
  (BuildFromTools (LexicalStore Mock.NewMockSearchStore) tools).1.

Definition fooStore : SearchStore :=
  (BuildFromTools (LexicalStore Mock.NewMockSearchStore) [fooTool]).1.

(** [strconv.ParseFloat] on the strings of decimal digits; every other
    string is refused here. *)
Fixpoint digitsValue (s : string) (acc : Z) : option Z :=
  match s with
  | EmptyString => Some acc
  | String c s' =>
      let n := Z.of_nat (nat_of_ascii c) in
      if (48 <=? n) && (n <=? 57) then digitsValue s' (10 * acc + (n - 48)) else None
  end.

Definition parseDigits (s : string) : option GloVe.float32 :=
  match s with
  | EmptyString => None
  | _ => GloVe.f32_of_int <$> digitsValue s 0
  end.

(** A machine whose cache already holds the model file. *)
Definition cached (fileLines : list string) : GloVe.OS :=
  GloVe.mkOS (fun _ => None) (fun dir file => dir +:+ "/" +:+ file)
    (fun _ => false) (fun _ _ _ => None)
    (fun _ => Ok (GloVe.mkScanned fileLines None)).

Definition vectorFile : list string :=
  [ "hello 1 x 3"; ""; "lonely"; "world 2 2 2" ].

(** A file with a line of two fields only. *)
Definition shortFile : list string := [ "hello 1" ].

End Examples.

(** The last element of a list that carries a key. *)
Definition findLast {A : Type} (key : A -> string) (l : list A) (k : string) : option A :=
  List.find (fun x => bool_decide (key x = k)) (reverse l).

Module MoreExamples.

(** A tool whose schema is a mapping [json.Marshal] refuses (it holds a
    value of a type with no JSON form, a channel for instance). *)
Definition channelTool : Tool :=
  mkTool "chan" "misc" "" (GoMap {[ "c" := GoOther None ]}).

(** Two tools under one name. *)
Definition twin1 : Tool := mkTool "twin" "first" "" GoNil.
Definition twin2 : Tool := mkTool "twin" "second" "" GoNil.

Definition twinSearcher : Codex.CodexSearcher :=
  Codex.mkSearcher (fun _ _ _ => Ok ["twin"]).

Definition failing : Codex.CodexSearcher :=
  Codex.mkSearcher (fun _ _ _ => Err "exit status 1").

(** A collaborator that keeps to [topK]. *)
Definition obedient : Codex.CodexSearcher :=
  Codex.mkSearcher
    (fun _ _ topK => Ok (take (Z.to_nat topK) ["other"; "ghost"; "deploy-tool"])).

End MoreExamples.


(** What [Generate] averages (Section 4.5): the vectors of the tokens
    found in the vocabulary, summed component by component in float32
    arithmetic, in token order, and divided by their number. *)
Module EmbeddingSpec.

Definition found (e : GloVe.GloVeEmbedder) (tokens : list string) : list (list GloVe.float32) :=
  omap (fun word => GloVe.vectors e !! word) tokens.

Definition sumVectors (d : Z) (vecs : list (list GloVe.float32)) : list GloVe.float32 :=
  foldl (zip_with GloVe.f32_add) (zeroVector d) vecs.

Definition meanVector (d : Z) (vecs : list (list GloVe.float32)) : list GloVe.float32 :=
  match vecs with
  | [] => sumVectors d vecs
  | _ => (fun x => GloVe.f32_div x (GloVe.f32_of_int (Z.of_nat (length vecs))))
           <$> sumVectors d vecs
  end.

End EmbeddingSpec.

Module EmbedderExamples.

(** The fields ["1"], repeated. *)
Fixpoint ones (n : nat) : string :=
  match n with
  | O => ""
  | S n' => " 1" +:+ ones n'
  end.

(** A vector file for the model of dimension 50: one word, 50 values. *)
Definition wideFile : list string := [ "hello" +:+ ones 50 ].

(** An embedder of dimension 2 over two words, one of them with a
    longer vector. *)
Definition small : GloVe.GloVeEmbedder :=
  GloVe.mkEmbedder
    (list_to_map
       [ ("hello", [GloVe.f32_of_int 3; GloVe.f32_of_int 4]);
         ("world", [GloVe.f32_of_int 1; GloVe.f32_of_int 2; GloVe.f32_of_int 9]) ])
    2.

End EmbedderExamples.

(** * Properties *)

(** *** The [strings] functions on sample inputs *)

Example Fields_ex :
  ASCII.Fields "  deploy  the tool " = ["deploy"; "the"; "tool"].
Proof. reflexivity. Qed.

Example ToLower_ex : ASCII.ToLower "Deploy-Tool 9" = "deploy-tool 9".
Proof. reflexivity. Qed.

Example Contains_ex :
  strings.Contains "deploy-tool" "ploy" = true /\
  strings.Contains "deploy-tool" "plot" = false /\
  strings.Contains "" "" = true.
Proof. repeat split; reflexivity. Qed.

(** *** Loops *)

Lemma for_steps_invariant {S : Type} (P : nat -> S -> Prop) (body : nat -> S -> S) :
  forall n j s,
    P j s ->
    (forall k s', (j <= k < j + n)%nat -> P k s' -> P (Datatypes.S k) (body k s')) ->
    P (j + n)%nat (for_steps n j body s).
Proof.
  induction n as [|n IH]; intros j s Hinit Hstep; simpl.
  - by rewrite Nat.add_0_r.
  - replace (j + Datatypes.S n)%nat with (Datatypes.S j + n)%nat by lia.
    apply IH.
    + apply Hstep; [lia | done].
    + intros k s' Hk. apply Hstep. lia.
Qed.

Lemma for_loop_invariant {S : Type} (P : nat -> S -> Prop) (body : nat -> S -> S) lo hi s :
  (lo <= hi)%nat ->
  P lo s ->
  (forall k s', (lo <= k < hi)%nat -> P k s' -> P (Datatypes.S k) (body k s')) ->
  P hi (for_loop lo hi body s).
Proof.
  intros Hle Hinit Hstep. unfold for_loop.
  replace hi with (lo + (hi - lo))%nat at 1 by lia.
  apply for_steps_invariant; [done |].
  intros k s' Hk. apply Hstep. lia.
Qed.

(** *** What [make] answers *)

Section MakeFacts.

Context {rt : Runtime}.

Lemma maxAlloc_large : 2 ^ 32 <= maxAlloc.
Proof. unfold maxAlloc. apply Z.pow_le_mono_r; lia. Qed.

Lemma fits_small size cap :
  0 <= cap -> size * cap <= maxSmallSize -> fits size cap = true.
Proof.
  intros Hcap Hsmall. unfold fits. pose proof maxAlloc_large.
  unfold maxSmallSize in *.
  rewrite (proj2 (Z.leb_le 0 cap)) by lia.
  rewrite (proj2 (Z.leb_le (size * cap) maxAlloc)) by lia.
  rewrite (proj2 (Z.leb_le (size * cap) 32768)) by lia. done.
Qed.

Lemma makeslice_cap_fits size cap :
  0 < size -> (makeslice size 0 cap = Ok tt <-> fits size cap = true).
Proof.
  intros Hsize. unfold makeslice, fits. pose proof maxAlloc_large.
  destruct (Z.ltb_spec cap 0), (Z.leb_spec 0 cap); try lia; simpl.
  - destruct (Z.ltb_spec maxAlloc (size * 0)); [lia|]. simpl. split; done.
  - destruct (Z.ltb_spec maxAlloc (size * cap)), (Z.leb_spec (size * cap) maxAlloc);
      try lia; simpl.
    + destruct (Z.ltb_spec maxAlloc (size * 0)); [lia|]. split; done.
    + destruct (_ || _); split; done.
Qed.

Lemma makeslice_len_fits size n :
  0 < size -> (makeslice size n n = Ok tt <-> fits size n = true).
Proof.
  intros Hsize. unfold makeslice, fits. pose proof maxAlloc_large.
  rewrite Z.ltb_irrefl, !orb_false_r.
  destruct (Z.ltb_spec n 0), (Z.leb_spec 0 n); try lia; simpl.
  - split; done.
  - destruct (Z.ltb_spec maxAlloc (size * n)), (Z.leb_spec (size * n) maxAlloc);
      try lia; simpl.
    + split; done.
    + destruct (_ || _); split; done.
Qed.

Lemma makeslice_not_Err size len cap e : makeslice size len cap <> Err e.
Proof. unfold makeslice. repeat case_match; done. Qed.

Lemma make_cap_fits A cap : fits ptrSize cap = true -> make_cap A cap = Ok [].
Proof.
  intros Hfits. unfold make_cap.
  by rewrite (proj2 (makeslice_cap_fits ptrSize cap ltac:(done)) Hfits).
Qed.

Lemma make_cap_Ok A cap (l : list A) :
  make_cap A cap = Ok l -> l = [] /\ fits ptrSize cap = true.
Proof.
  unfold make_cap. destruct (makeslice ptrSize 0 cap) as [[]| |] eqn:Hm; simpl; [|done..].
  intros [= <-]. split; [done|]. by apply (makeslice_cap_fits ptrSize cap).
Qed.

Lemma make_cap_not_Err A cap e : make_cap A cap <> Err e.
Proof.
  unfold make_cap.
  destruct (makeslice ptrSize 0 cap) as [[]|e'|p] eqn:Hm; simpl; [done| |done].
  by apply makeslice_not_Err in Hm.
Qed.

Lemma make_cap_negative A cap :
  cap < 0 -> make_cap A cap = Panic MakesliceCapOutOfRange.
Proof.
  intros Hneg. unfold make_cap, makeslice. pose proof maxAlloc_large.
  destruct (Z.ltb_spec cap 0); [|lia]. simpl.
  destruct (Z.ltb_spec maxAlloc (ptrSize * 0)); [unfold ptrSize in *; lia|]. done.
Qed.

Lemma make_cap_zero A : make_cap A 0 = Ok [].
Proof. apply make_cap_fits, fits_small; [lia | unfold ptrSize, maxSmallSize; lia]. Qed.

Lemma make_f32_fits n :
  fits float32Size n = true ->
  GloVe.make_f32 n = Ok (replicate (Z.to_nat n) GloVe.f32_zero).
Proof.
  intros Hfits. unfold GloVe.make_f32.
  by rewrite (proj2 (makeslice_len_fits float32Size n ltac:(done)) Hfits).
Qed.

Lemma make_f32_refused n :
  fits float32Size n = false -> exists p, GloVe.make_f32 n = Panic p.
Proof.
  intros Hfits. unfold GloVe.make_f32.
  destruct (makeslice float32Size n n) as [[]|e|p] eqn:Hm; simpl.
  - apply (makeslice_len_fits float32Size n) in Hm; [congruence|done].
  - by apply makeslice_not_Err in Hm.
  - eauto.
Qed.

Lemma fits_nonneg size cap : fits size cap = true -> 0 <= cap.
Proof. unfold fits. intros H. apply andb_true_iff in H as [H _].
  apply andb_true_iff in H as [H _]. by apply Z.leb_le. Qed.

End MakeFacts.

(** *** The exchange sort of [MockSearchStore.Search] *)

Section ExchangeSort.
Import Mock.
Implicit Types (a : list scoredTool) (i j p q : nat).

Lemma insert_head_perm a j x y :
  a !! j = Some y -> y :: <[j := x]> a ≡ₚ x :: a.
Proof.
  revert j. induction a as [|z a IH]; intros [|j] Hj; simplify_eq/=.
  - apply Permutation_swap.
  - rewrite Permutation_swap. rewrite (IH _ Hj). apply Permutation_swap.
Qed.

Lemma exchange_perm a i j x y :
  (i < j)%nat -> a !! i = Some x -> a !! j = Some y ->
  <[j := x]> (<[i := y]> a) ≡ₚ a.
Proof.
  revert i j. induction a as [|z a IH]; intros [|i] [|j] Hlt Hi Hj; simplify_eq/=; try lia.
  - by apply insert_head_perm.
  - f_equiv. apply IH; [lia | done | done].
Qed.

Lemma swapIfGreater_perm a i j : (i < j)%nat -> swapIfGreater i j a ≡ₚ a.
Proof.
  intros Hlt. unfold swapIfGreater.
  destruct (a !! i) as [si|] eqn:Hi; [|done].
  destruct (a !! j) as [sj|] eqn:Hj; [|done].
  destruct (score si <? score sj); [|done].
  by apply exchange_perm.
Qed.

Lemma swapIfGreater_length a i j : length (swapIfGreater i j a) = length a.
Proof.
  unfold swapIfGreater.
  destruct (a !! i); [|done]. destruct (a !! j); [|done].
  destruct (_ <? _); [|done]. by rewrite !length_insert.
Qed.

Lemma swapIfGreater_lookup_below a i j p :
  (p < i)%nat -> (i < j)%nat -> swapIfGreater i j a !! p = a !! p.
Proof.
  intros Hp Hij. unfold swapIfGreater.
  destruct (a !! i); [|done]. destruct (a !! j); [|done].
  destruct (_ <? _); [|done].
  rewrite !list_lookup_insert_ne by lia. done.
Qed.

(** Whatever sits at a position from [i] on after the exchange sat at a
    position from [i] on before it. *)
Lemma swapIfGreater_lookup_from a i j q y :
  (i < j)%nat -> (i <= q)%nat -> swapIfGreater i j a !! q = Some y ->
  exists q', (i <= q')%nat /\ a !! q' = Some y.
Proof.
  intros Hij Hq. unfold swapIfGreater.
  destruct (a !! i) as [si|] eqn:Hi; [|by eauto].
  destruct (a !! j) as [sj|] eqn:Hj; [|by eauto].
  destruct (_ <? _); [|by eauto].
  intros Hy.
  destruct (decide (q = j)) as [->|Hqj].
  { rewrite list_lookup_insert_eq in Hy; [|rewrite length_insert; by eapply lookup_lt_Some].
    simplify_eq. eauto. }
  rewrite list_lookup_insert_ne in Hy by done.
  destruct (decide (q = i)) as [->|Hqi].
  { rewrite list_lookup_insert_eq in Hy; [|by eapply lookup_lt_Some].
    simplify_eq. exists j. split; [lia | done]. }
  rewrite list_lookup_insert_ne in Hy by done. eauto.
Qed.

Lemma swapIfGreater_dominates_below a i j p :
  (p < i)%nat -> (i < j)%nat ->
  dominates a p (length a) -> dominates (swapIfGreater i j a) p (length a).
Proof.
  intros Hp Hij Hdom q x y Hq Hx Hy.
  rewrite swapIfGreater_lookup_below in Hx by done.
  destruct (decide (i <= q)%nat) as [Hiq|Hiq].
  - destruct (swapIfGreater_lookup_from _ _ _ _ _ Hij Hiq Hy) as (q' & Hq' & Hy').
    apply (Hdom q' x y); [|done|done].
    split; [lia | by eapply lookup_lt_Some].
  - unfold swapIfGreater in Hy.
    destruct (a !! i); [|by eapply Hdom]. destruct (a !! j); [|by eapply Hdom].
    destruct (_ <? _); [|by eapply Hdom].
    rewrite !list_lookup_insert_ne in Hy by lia. by eapply Hdom.
Qed.

Lemma swapIfGreater_dominates_step a i j :
  (i < j)%nat -> dominates a i j -> dominates (swapIfGreater i j a) i (Datatypes.S j).
Proof.
  intros Hij Hdom q x y Hq. unfold swapIfGreater.
  destruct (a !! i) as [si|] eqn:Hi.
  2:{ intros Hx; by rewrite Hi in Hx. }
  destruct (a !! j) as [sj|] eqn:Hj.
  2:{ intros Hx Hy. destruct (decide (q = j)) as [->|]; [congruence|].
      eapply (Hdom q); [lia|done|done]. }
  destruct (Z.ltb_spec (score si) (score sj)) as [Hcmp|Hcmp].
  - assert (i < length a)%nat by by eapply lookup_lt_Some.
    assert (j < length a)%nat by by eapply lookup_lt_Some.
    rewrite list_lookup_insert_ne by lia.
    rewrite list_lookup_insert_eq by done.
    intros Hx. injection Hx as <-.
    destruct (decide (q = j)) as [->|Hqj].
    + rewrite list_lookup_insert_eq by (rewrite length_insert; done).
      intros Hy. injection Hy as <-. lia.
    + rewrite !list_lookup_insert_ne by lia. intros Hy.
      specialize (Hdom q si y ltac:(lia) Hi Hy). lia.
  - intros Hx Hy.
    destruct (decide (q = j)) as [->|Hqj].
    + rewrite Hi in Hx. rewrite Hj in Hy. simplify_eq. lia.
    + eapply (Hdom q); [lia|done|done].
Qed.

Lemma innerLoop_spec a i :
  (i < length a)%nat ->
  (forall p, (p < i)%nat -> dominates a p (length a)) ->
  let a' := innerLoop i a in
  a' ≡ₚ a /\ length a' = length a /\
  (forall p, (p < Datatypes.S i)%nat -> dominates a' p (length a)).
Proof.
  intros Hi Hbelow. unfold innerLoop.
  pose (P := fun j b =>
    b ≡ₚ a /\ length b = length a /\
    (forall p, (p < i)%nat -> dominates b p (length a)) /\
    dominates b i j).
  assert (P (length a) (for_loop (i + 1) (length a) (fun j b => swapIfGreater i j b) a))
    as (Hperm & Hlen & Hlow & Hdom).
  { apply for_loop_invariant; [lia | |].
    - split; [done|]. split; [done|]. split; [exact Hbelow|].
      intros q x y Hq. lia.
    - intros j b Hj (Hperm & Hlen & Hlow & Hdom).
      split; [|split; [|split]].
      + rewrite swapIfGreater_perm by lia. done.
      + by rewrite swapIfGreater_length.
      + intros p Hp. rewrite <- Hlen. apply swapIfGreater_dominates_below; [done|lia|].
        rewrite Hlen. by apply Hlow.
      + apply swapIfGreater_dominates_step; [lia|done]. }
  split; [done|]. split; [done|].
  intros p Hp. destruct (decide (p = i)) as [->|]; [done|]. apply Hlow. lia.
Qed.

Lemma sortByScore_spec a :
  let a' := sortByScore a in
  a' ≡ₚ a /\ forall p, dominates a' p (length a').
Proof.
  unfold sortByScore.
  pose (P := fun i b =>
    b ≡ₚ a /\ length b = length a /\
    forall p, (p < i)%nat -> dominates b p (length a)).
  assert (P (length a) (for_loop 0 (length a) (fun i b => innerLoop i b) a))
    as (Hperm & Hlen & Hdom).
  { apply for_loop_invariant; [lia| |].
    - split; [done|]. split; [done|]. intros; lia.
    - intros i b Hi (Hperm & Hlen & Hdom).
      destruct (innerLoop_spec b i) as (Hperm' & Hlen' & Hdom').
      { lia. } { intros p Hp. rewrite Hlen. by apply Hdom. }
      split; [|split].
      + by rewrite Hperm'.
      + lia.
      + intros p Hp. rewrite <- Hlen. by apply Hdom'. }
  simpl. split; [done|].
  intros p q x y Hq Hx Hy. rewrite Hlen in Hq.
  apply (Hdom p) with (q := q); [|done..].
  apply lookup_lt_Some in Hx. lia.
Qed.

Lemma dominates_sorted a :
  (forall p, dominates a p (length a)) ->
  StronglySorted (fun x y => score y <= score x) a.
Proof.
  induction a as [|z a IH]; intros Hdom; constructor.
  - apply IH. intros p q x y Hq Hx Hy.
    apply (Hdom (Datatypes.S p) (Datatypes.S q) x y); simpl; [lia|done|done].
  - apply Forall_lookup_2. intros q y Hy.
    apply (Hdom 0%nat (Datatypes.S q) z y); simpl; [|done|done].
    apply lookup_lt_Some in Hy. lia.
Qed.

Theorem sortByScore_sorted a :
  StronglySorted (fun x y => score y <= score x) (sortByScore a).
Proof. apply dominates_sorted, sortByScore_spec. Qed.

Theorem sortByScore_perm a : sortByScore a ≡ₚ a.
Proof. apply sortByScore_spec. Qed.

End ExchangeSort.

(** *** The lexical score and the candidate set *)

Section LexicalRanking.
Import Mock.
Context {rt : Runtime} {lib : strings.Lib}.

Lemma matches_cons field w ws :
  LexicalSpec.matches field (w :: ws) =
  (if strings.Contains (strings.ToLower field) w then 1 else 0) + LexicalSpec.matches field ws.
Proof.
  unfold LexicalSpec.matches. rewrite filter_cons.
  destruct (strings.Contains _ w); case_decide; try done; simpl length; lia.
Qed.

Lemma scoreWord_foldl t ws acc :
  foldl (scoreWord (strings.ToLower (Name t)) (strings.ToLower (Description t))
           (strings.ToLower (Category t))) acc ws =
  acc + LexicalSpec.score ws t.
Proof.
  revert acc. induction ws as [|w ws IH]; intros acc.
  - unfold LexicalSpec.score, LexicalSpec.matches. simpl. lia.
  - simpl foldl. rewrite IH. unfold LexicalSpec.score.
    rewrite !matches_cons. unfold scoreWord.
    destruct (strings.Contains (strings.ToLower (Name t)) w),
             (strings.Contains (strings.ToLower (Description t)) w),
             (strings.Contains (strings.ToLower (Category t)) w); lia.
Qed.

Lemma scoreTool_spec ws t : scoreTool ws t = LexicalSpec.score ws t.
Proof. unfold scoreTool. by rewrite scoreWord_foldl. Qed.

Lemma scoreStep_foldl query ts acc :
  foldl (scoreStep query (LexicalSpec.words query)) acc ts =
  acc ++ (scoredOf query <$> LexicalSpec.candidates query ts).
Proof.
  revert acc. induction ts as [|t ts IH]; intros acc; simpl.
  - by rewrite app_nil_r.
  - rewrite IH. unfold LexicalSpec.candidates. rewrite filter_cons.
    unfold scoreStep. rewrite scoreTool_spec.
    destruct (decide (LexicalSpec.eligible query t)) as [He|He].
    + assert ((0 <? LexicalSpec.score (LexicalSpec.words query) t)
              || bool_decide (query = "") = true) as ->.
      { destruct He as [He| ->].
        - apply Z.ltb_lt in He. by rewrite He.
        - by rewrite orb_true_r. }
      by rewrite <- app_assoc.
    + assert ((0 <? LexicalSpec.score (LexicalSpec.words query) t)
              || bool_decide (query = "") = false) as ->; [|done].
      apply orb_false_iff. split.
      * apply Z.ltb_ge. unfold LexicalSpec.eligible in He. lia.
      * apply bool_decide_eq_false. unfold LexicalSpec.eligible in He. tauto.
Qed.

Lemma topResults_take rest i topK :
  topResults rest i topK = tool <$> take (Z.to_nat (topK - i)) rest.
Proof.
  revert i. induction rest as [|st rest IH]; intros i; simpl.
  - by rewrite take_nil.
  - destruct (Z.ltb_spec i topK).
    + rewrite IH. replace (Z.to_nat (topK - i)) with (Datatypes.S (Z.to_nat (topK - (i + 1)))) by lia.
      done.
    + replace (Z.to_nat (topK - i)) with 0%nat by lia. done.
Qed.

Lemma Search_unfold s query topK :
  Search s query topK =
  if bool_decide (length (tools s) = 0%nat) then Ok []
  else match make_cap Tool topK with
       | Ok _ => Ok (take (Z.to_nat topK) (ranked query (tools s)))
       | Err e => Err e
       | Panic p => Panic p
       end.
Proof.
  unfold Search. case_bool_decide; [done|].
  destruct (make_cap Tool topK) as [results| |] eqn:Hmk; simpl; [|done..].
  apply make_cap_Ok in Hmk as [-> _].
  simpl. rewrite topResults_take, Z.sub_0_r, fmap_take.
  fold (LexicalSpec.words query). rewrite scoreStep_foldl. done.
Qed.

Lemma ranked_perm query ts : ranked query ts ≡ₚ LexicalSpec.candidates query ts.
Proof.
  unfold ranked. rewrite sortByScore_perm.
  rewrite <- list_fmap_compose. by rewrite list_fmap_id.
Qed.

Lemma ranked_descending query ts : LexicalSpec.descending query (ranked query ts).
Proof.
  unfold LexicalSpec.descending, ranked.
  set (a := scoredOf query <$> _).
  assert (Forall (fun st => score st = LexicalSpec.score (LexicalSpec.words query) (tool st))
            (sortByScore a)) as Hsc.
  { rewrite sortByScore_perm. subst a. apply Forall_fmap, Forall_true. done. }
  pose proof (sortByScore_sorted a) as Hsorted.
  induction Hsorted as [|st l Hs IH Hall]; simpl; constructor.
  - apply IH. by inversion Hsc.
  - apply Forall_fmap. inversion Hsc as [|? ? Hst Hl]; subst.
    rewrite Forall_forall in *. intros y Hy. simpl.
    rewrite <- Hst, <- (Hl y Hy). by apply Hall.
Qed.

End LexicalRanking.

(** *** The name-to-tool map of [CodexSearchStore.Search] *)

Section ToolMap.
Import Codex RerankSpec.

Lemma toolMap_foldl_inv (ts : list Tool) (m : gmap string Tool) name t :
  foldl (fun toolMap t => <[Name t := t]> toolMap) m ts !! name = Some t ->
  (t ∈ ts /\ Name t = name) \/ m !! name = Some t.
Proof.
  revert m. induction ts as [|t0 ts IH]; intros m; simpl; [by right|].
  intros H. apply IH in H as [[Hin Hn]|H].
  - left. split; [by right | done].
  - destruct (decide (Name t0 = name)) as [<-|Hne].
    + rewrite lookup_insert_eq in H. simplify_eq. left. split; [by left|done].
    + rewrite lookup_insert_ne in H by done. by right.
Qed.

Lemma buildToolMap_sound ts name t :
  buildToolMap ts !! name = Some t -> t ∈ ts /\ Name t = name.
Proof.
  intros H. apply toolMap_foldl_inv in H as [H|H]; [done|].
  by rewrite lookup_empty in H.
Qed.

Lemma toolNamed_None ts name :
  name ∉ Name <$> ts -> toolNamed ts name = None.
Proof.
  unfold toolNamed. induction ts as [|t ts IH]; simpl; [done|].
  rewrite not_elem_of_cons. intros [Hne Hnin].
  rewrite bool_decide_eq_false_2 by done. by apply IH.
Qed.

Lemma toolMap_foldl_distinct (ts : list Tool) (m : gmap string Tool) name :
  NoDup (Name <$> ts) ->
  foldl (fun toolMap t => <[Name t := t]> toolMap) m ts !! name =
  match toolNamed ts name with Some t => Some t | None => m !! name end.
Proof.
  revert m. induction ts as [|t ts IH]; intros m Hnd; simpl; [done|].
  rewrite fmap_cons, NoDup_cons in Hnd. destruct Hnd as [Hnin Hnd].
  rewrite IH by done. unfold toolNamed at 2. simpl.
  case_bool_decide as Hn.
  - subst name. rewrite toolNamed_None by done. by rewrite lookup_insert_eq.
  - fold (toolNamed ts name). by rewrite lookup_insert_ne.
Qed.

Lemma buildToolMap_distinct ts name :
  NoDup (Name <$> ts) -> buildToolMap ts !! name = toolNamed ts name.
Proof.
  intros Hnd. unfold buildToolMap. rewrite toolMap_foldl_distinct by done.
  rewrite lookup_empty. by destruct (toolNamed ts name).
Qed.

Lemma lookupStep_foldl (m : gmap string Tool) names acc :
  foldl (lookupStep m) acc names = acc ++ omap (fun name => m !! name) names.
Proof.
  revert acc. induction names as [|n names IH]; intros acc; simpl.
  - by rewrite app_nil_r.
  - rewrite IH. unfold lookupStep. destruct (m !! n); [|done].
    by rewrite <- app_assoc.
Qed.

Lemma length_omap_le {A B} (f : A -> option B) (l : list A) :
  (length (omap f l) <= length l)%nat.
Proof. induction l as [|x l IH]; csimpl; [done|]. destruct (f x); csimpl; lia. Qed.

Lemma toolNamed_Some ts name t :
  toolNamed ts name = Some t -> t ∈ ts /\ Name t = name.
Proof.
  unfold toolNamed. intros H. apply find_some in H as [Hin Hn].
  apply bool_decide_eq_true in Hn. split; [by apply list_elem_of_In | done].
Qed.

Lemma inOrder_names ts names :
  Name <$> inOrder ts names = filter (fun n => n ∈ Name <$> ts) names.
Proof.
  unfold inOrder. induction names as [|n names IH]; csimpl; [done|].
  rewrite filter_cons. destruct (toolNamed ts n) as [t|] eqn:Ht.
  - apply toolNamed_Some in Ht as [Hin <-].
    rewrite decide_True by (by apply list_elem_of_fmap_2).
    csimpl. by rewrite IH.
  - rewrite decide_False; [done|].
    intros (t & -> & Hin)%list_elem_of_fmap.
    unfold toolNamed in Ht.
    apply list_elem_of_In in Hin.
    pose proof (find_none _ _ Ht t Hin) as Hf.
    simpl in Hf. by rewrite bool_decide_eq_true_2 in Hf.
Qed.

Lemma Search_returned (s : CodexSearchStore) query topK names :
  SearchTools (searcher s) query (schemas s) topK = Ok names ->
  Search s query topK =
  Ok (if bool_decide (length (tools s) = 0%nat) then []
      else omap (fun name => buildToolMap (tools s) !! name) names).
Proof.
  intros Hn. unfold Search. case_bool_decide; [done|].
  rewrite Hn. by rewrite lookupStep_foldl.
Qed.

End ToolMap.

(** *** The metadata projection and the payload of [BuildFromTools] *)

Section Metadata.
Import Codex RerankSpec.

Lemma toMetadata_fields t :
  mdName (toMetadata t) = Name t /\
  mdCategory (toMetadata t) = Category t /\
  mdDescription (toMetadata t) = Description t /\
  forall m, mdParameters (toMetadata t) = Some m <-> InputSchema t = GoMap m.
Proof.
  unfold toMetadata. destruct (InputSchema t); simpl; repeat split; try done;
    intros; simplify_eq; done.
Qed.

Lemma baseFields_lookup (a b c : JSON) :
  let base : gmap string JSON :=
    {[ "Name" := a; "Category" := b; "Description" := c ]} in
  base !! "Name" = Some a /\ base !! "Category" = Some b /\
  base !! "Description" = Some c /\ base !! "Parameters" = None.
Proof. repeat split; reflexivity. Qed.

Lemma encodeMetadata_entry t entry :
  encodeMetadata (toMetadata t) = Some entry -> entryFor t entry.
Proof.
  pose proof (baseFields_lookup (JString (Name t)) (JString (Category t))
                (JString (Description t))) as (Hn & Hc & Hd & Hp).
  unfold entryFor, encodeMetadata, toMetadata.
  destruct (InputSchema t) as [| | | | |m|] eqn:Hs; simpl.
  6:{ destruct (encodeMap m) as [j|]; simpl; [|done].
      intros [= <-]. eexists; split; [done|].
      rewrite !lookup_insert_ne by done. rewrite lookup_insert_eq.
      split; [done|]. split; [done|]. split; [done|]. split; eauto. }
  all: intros [= <-]; eexists; split; [done|];
    split; [done|]; split; [done|]; split; [done|];
    rewrite Hp; split; [intros [? ?]; done | intros [? ?]; done].
Qed.

Lemma encodeMetadata_is_Some t :
  is_Some (encodeMetadata (toMetadata t)) <-> encodable t.
Proof.
  unfold encodeMetadata, toMetadata, encodable.
  destruct (InputSchema t); simpl; try (split; [done | eauto]).
  rewrite fmap_is_Some. done.
Qed.

Lemma BuildFromTools_result s allTools :
  (BuildFromTools s allTools).2 = Ok tt <-> Forall encodable allTools.
Proof.
  unfold BuildFromTools, json_Marshal.
  destruct (mapM encodeMetadata (toMetadata <$> allTools)) as [js|] eqn:Hm; simpl.
  - split; [intros _|done].
    assert (is_Some (mapM encodeMetadata (toMetadata <$> allTools))) as Hs by eauto.
    apply mapM_is_Some in Hs. rewrite Forall_fmap in Hs.
    eapply Forall_impl; [exact Hs|]. intros t Ht. by apply encodeMetadata_is_Some.
  - split; [done|]. intros Hall.
    assert (is_Some (mapM encodeMetadata (toMetadata <$> allTools))) as [? Hs].
    { apply mapM_is_Some. rewrite Forall_fmap.
      eapply Forall_impl; [exact Hall|]. intros t Ht. by apply encodeMetadata_is_Some. }
    congruence.
Qed.

Lemma BuildFromTools_payload s allTools :
  (BuildFromTools s allTools).2 = Ok tt ->
  exists entries,
    schemas (BuildFromTools s allTools).1 = Some (JArray entries) /\
    Forall2 entryFor allTools entries.
Proof.
  unfold BuildFromTools, json_Marshal.
  destruct (mapM encodeMetadata (toMetadata <$> allTools)) as [js|] eqn:Hm; simpl; [|done].
  intros _. exists js. split; [done|].
  apply mapM_Some in Hm. apply Forall2_fmap_l in Hm.
  eapply Forall2_impl; [exact Hm|]. intros t entry. apply encodeMetadata_entry.
Qed.

End Metadata.

(** *** The vector-file parser *)

Section VectorFile.
Import GloVe VectorFileSpec.
Context {lib : strings.Lib}.
Variable ParseFloat32 : string -> option float32.

Lemma parseFields_spec fields (filled : list float32) :
  parseFields ParseFloat32 (length filled) fields
    (filled ++ replicate (length fields) f32_zero) =
  filled ++ parsedVector ParseFloat32 fields.
Proof.
  revert filled. induction fields as [|s fields IH]; intros filled; simpl; [done|].
  destruct (ParseFloat32 s) as [val|] eqn:Hs; simpl.
  - replace (length filled) with (length filled + 0)%nat at 2 by lia.
    rewrite insert_app_r. simpl.
    rewrite (cons_middle val), app_assoc.
    replace (Datatypes.S (length filled)) with (length (filled ++ [val]))
      by (rewrite length_app; simpl; lia).
    rewrite IH. by rewrite <- app_assoc.
  - rewrite (cons_middle f32_zero), app_assoc.
    replace (Datatypes.S (length filled)) with (length (filled ++ [f32_zero]))
      by (rewrite length_app; simpl; lia).
    rewrite IH. by rewrite <- app_assoc.
Qed.

Lemma parseLine_short vectors line :
  (length (strings.Fields line) < 2)%nat ->
  parseLine ParseFloat32 vectors line = vectors /\ entryOf ParseFloat32 line = None.
Proof.
  intros Hlen. unfold parseLine, entryOf.
  rewrite bool_decide_eq_true_2 by done.
  destruct (strings.Fields line) as [|w [|? ?]]; simpl in *; [done|done|lia].
Qed.

Lemma parseLine_entry vectors line :
  parseLine ParseFloat32 vectors line =
  match entryOf ParseFloat32 line with
  | Some e => <[e.1 := e.2]> vectors
  | None => vectors
  end.
Proof.
  unfold parseLine, entryOf.
  destruct (strings.Fields line) as [|word [|s fields]] eqn:Hf; simpl.
  - by repeat case_match.
  - by repeat case_match.
  - f_equal.
    destruct (ParseFloat32 s) as [val|]; simpl.
    + apply (parseFields_spec fields [val]).
    + apply (parseFields_spec fields [f32_zero]).
Qed.

Lemma parseLine_foldl lines vectors :
  foldl (parseLine ParseFloat32) vectors lines =
  foldl (fun m e => <[e.1 := e.2]> m) vectors (omap (entryOf ParseFloat32) lines).
Proof.
  revert vectors. induction lines as [|line lines IH]; intros vectors; csimpl; [done|].
  rewrite IH, parseLine_entry.
  by destruct (entryOf ParseFloat32 line).
Qed.

Lemma loadGloVeVectors_spec os path file :
  Open os path = Ok file ->
  loadGloVeVectors ParseFloat32 os path =
  match scanErr file with
  | Some err => Err err
  | None => Ok (vocabulary ParseFloat32 (lines file))
  end.
Proof.
  intros Ho. unfold loadGloVeVectors. rewrite Ho. simpl.
  unfold vocabulary. by rewrite parseLine_foldl.
Qed.

End VectorFile.

(** *** [Generate] on a text with no token in the vocabulary *)

Section GenerateZero.
Import GloVe.
Context {rt : Runtime} {lib : strings.Lib}.
Variable ParseFloat32 : string -> option float32.
Variable normalize : list float32 -> list float32.

Lemma gloveModels_dim modelName cfg :
  gloveModels !! modelName = Some cfg ->
  cfg_dim cfg = 50 \/ cfg_dim cfg = 100 \/ cfg_dim cfg = 200 \/ cfg_dim cfg = 300.
Proof.
  intros H. apply elem_of_list_to_map_2 in H.
  repeat (apply elem_of_cons in H as [H|H]; [simplify_eq; simpl; tauto|]).
  by apply elem_of_nil in H.
Qed.

Lemma NewGloVeEmbedder_dim os modelName cacheDir e :
  NewGloVeEmbedder ParseFloat32 os modelName cacheDir = Ok e ->
  dim e = 50 \/ dim e = 100 \/ dim e = 200 \/ dim e = 300.
Proof.
  unfold NewGloVeEmbedder.
  destruct (gloveModels !! modelName) as [cfg|] eqn:Hcfg; [|done].
  destruct (MkdirAll os cacheDir); [done|].
  destruct (if NotExist os _ then _ else _); [done|].
  destruct (loadGloVeVectors _ _ _); [|done|done].
  intros [= <-]. simpl. by eapply gloveModels_dim.
Qed.

Lemma accumulate_not_found e words embedding count :
  Forall (fun w => vectors e !! w = None) words ->
  accumulate e words embedding count = Ok (embedding, count).
Proof.
  induction 1 as [|w words Hw _ IH]; simpl; [done|]. by rewrite Hw.
Qed.

Lemma tokenize_unusable e text :
  Forall (fun w => keepWord w = false \/ vectors e !! w = None)
    (strings.FieldsFunc (strings.ToLower text) isSeparator) ->
  Forall (fun w => vectors e !! w = None) (tokenize text).
Proof.
  intros Hall. unfold tokenize.
  apply Forall_forall. intros w [Hkeep Hin]%list_elem_of_filter.
  rewrite Forall_forall in Hall. destruct (Hall w Hin) as [H|H]; [congruence|done].
Qed.

Lemma Generate_zero e text :
  (forall n, normalize (replicate n f32_zero) = replicate n f32_zero) ->
  fits float32Size (dim e) = true ->
  Forall (fun w => keepWord w = false \/ vectors e !! w = None)
    (strings.FieldsFunc (strings.ToLower text) isSeparator) ->
  Generate normalize e text = Ok (zeroVector (dim e)).
Proof.
  intros Hnorm Hdim Hall. apply tokenize_unusable in Hall.
  unfold Generate, zeroVector. rewrite (make_f32_fits _ Hdim).
  case_bool_decide; [done|]. simpl.
  rewrite accumulate_not_found by done. simpl.
  by rewrite Hnorm.
Qed.

End GenerateZero.

(** *** Sample runs (Section 8 of the specification) *)

(** The runs are on the machine of [Examples.machine], with the ASCII
    functions for [strings]: the texts are ASCII. *)

Example lexical_empty_query_matches_everything :
  let foo := mkTool "foo" "" "" GoNil in
  let bar := mkTool "bar" "" "" GoNil in
  exists ts,
    Mock.Search (rt := Examples.machine) (lib := ASCII.lib)
      (Mock.BuildFromTools Mock.NewMockSearchStore [foo; bar]).1 "" 10 = Ok ts /\
    Permutation ts [foo; bar].
Proof. eexists. split; [vm_compute; reflexivity | reflexivity]. Qed.

Example lexical_name_match_ranks_first :
  let deploy := mkTool "deploy-tool" "infra" "" GoNil in
  let other := mkTool "other" "deploy" "" GoNil in
  Mock.Search (rt := Examples.machine) (lib := ASCII.lib)
    (Mock.BuildFromTools Mock.NewMockSearchStore [other; deploy]).1 "deploy" 2 =
    Ok [deploy; other].
Proof. vm_compute; reflexivity. Qed.

Example lexical_blank_query_matches_nothing :
  Search (rt := Examples.machine) (lib := ASCII.lib) Examples.lexicalStore "  " 10 = Ok [].
Proof. vm_compute; reflexivity. Qed.

Example lexical_huge_topK_panics :
  Search (rt := Examples.machine) (lib := ASCII.lib) Examples.lexicalStore "deploy"
    (2 ^ 63 - 1) = Panic MakesliceCapOutOfRange.
Proof. vm_compute; reflexivity. Qed.

Example lexical_large_topK_out_of_memory :
  Search (rt := Examples.machine) (lib := ASCII.lib) Examples.lexicalStore "deploy"
    (2 ^ 44) = Panic OutOfMemory.
Proof. vm_compute; reflexivity. Qed.

Example vocabulary_of_vectorFile :
  let table :=
    VectorFileSpec.vocabulary (lib := ASCII.lib) Examples.parseDigits Examples.vectorFile in
  table !! "hello" = Some [GloVe.f32_of_int 1; GloVe.f32_zero; GloVe.f32_of_int 3] /\
  table !! "world" = Some [GloVe.f32_of_int 2; GloVe.f32_of_int 2; GloVe.f32_of_int 2] /\
  table !! "lonely" = None /\
  size table = 2%nat.
Proof. repeat split; vm_compute; reflexivity. Qed.

Example tokenize_sample :
  GloVe.tokenize (lib := ASCII.lib) "The quick, brown-fox is a 9x X y2k!" =
    ["quick"; "brown"; "fox"; "9x"; "y2k"].
Proof. vm_compute; reflexivity. Qed.

Example generate_mean_of_found_words :
  let two := GloVe.f32_of_int 2 in
  let four := GloVe.f32_of_int 4 in
  let e := GloVe.mkEmbedder (list_to_map [("hello", [two; two]); ("world", [four; two])]) 2 in
  GloVe.Generate (rt := Examples.machine) (lib := ASCII.lib) id e "Hello, the big world" =
    Ok [GloVe.f32_of_int 3; two].
Proof. vm_compute; reflexivity. Qed.

(** ** The claims of the specification *)

(** C1.  Whenever [Search] returns a list, the list has at most
    [max(topK, 0)] tools: under the Lexical strategy by the cut of the
    code, under the External-Rerank strategy because the collaborator
    keeps to its contract, an answer of up to [topK] names, and the
    code returns at most one tool for each name. *)
Theorem search_length_bounded {rt : Runtime} {lib : strings.Lib} st query topK l :
  (forall s, st = RerankStore s -> RerankSpec.keepsToTopK (Codex.searcher s)) ->
  Search st query topK = Ok l ->
  (length l <= Z.to_nat (Z.max topK 0))%nat.
Proof.
  intros Hcontract. destruct st as [s|s]; simpl.
  - rewrite Search_unfold. case_bool_decide.
    + intros [= <-]. simpl. lia.
    + destruct (make_cap Tool topK) as [x| |]; [|done..].
      intros [= <-]. rewrite length_take. lia.
  - destruct (Codex.SearchTools (Codex.searcher s) query (Codex.schemas s) topK)
      as [names| |] eqn:Hn.
    + rewrite (Search_returned _ _ _ _ Hn). intros [= <-].
      pose proof (Hcontract s eq_refl _ _ _ _ Hn) as Hk.
      pose proof (length_omap_le
                    (fun name => Codex.buildToolMap (Codex.tools s) !! name) names).
      case_bool_decide; simpl; lia.
    + unfold Codex.Search. case_bool_decide; [|by rewrite Hn].
      intros [= <-]. simpl. lia.
    + unfold Codex.Search. case_bool_decide; [|by rewrite Hn].
      intros [= <-]. simpl. lia.
Qed.

Lemma search_length_bounded_witness :
  (forall s,
     RerankStore (Codex.BuildFromTools
                    (Codex.NewCodexSearchStore MoreExamples.obedient) Examples.tools).1 =
       RerankStore s ->
     RerankSpec.keepsToTopK (Codex.searcher s)) /\
  Search (rt := Examples.machine) (lib := ASCII.lib)
    (RerankStore (Codex.BuildFromTools
                    (Codex.NewCodexSearchStore MoreExamples.obedient) Examples.tools).1)
    "deploy" 2 = Ok [Examples.otherTool] /\
  (length [Examples.otherTool] <= Z.to_nat (Z.max 2 0))%nat.
Proof.
  assert (forall s,
     RerankStore (Codex.BuildFromTools
                    (Codex.NewCodexSearchStore MoreExamples.obedient) Examples.tools).1 =
       RerankStore s ->
     RerankSpec.keepsToTopK (Codex.searcher s)) as Hcontract.
  { intros s Hs query payload topK names.
    assert (Codex.searcher s = MoreExamples.obedient) as ->.
    { assert ((Codex.BuildFromTools (Codex.NewCodexSearchStore MoreExamples.obedient)
                 Examples.tools).1 = s) as <- by congruence.
      unfold Codex.BuildFromTools. by destruct (json_Marshal _). }
    intros [= <-]. rewrite length_take. lia. }
  split; [exact Hcontract|]. split; [vm_compute; reflexivity|].
  apply (search_length_bounded (rt := Examples.machine) (lib := ASCII.lib)
           (RerankStore (Codex.BuildFromTools
                    (Codex.NewCodexSearchStore MoreExamples.obedient) Examples.tools).1)
           "deploy" 2 [Examples.otherTool] Hcontract).
  vm_compute; reflexivity.
Defined.

(** C2.  The claim fails on the code.  On a non-empty catalog the
    Lexical [Search] returns the empty list for [topK = 0], and panics
    for every negative [topK]: the capacity handed to [make] is
    negative. *)
Theorem lexical_search_nonpositive_topK {rt : Runtime} {lib : strings.Lib}
    s query topK :
  Mock.tools s <> [] ->
  (topK = 0 -> Search (LexicalStore s) query topK = Ok []) /\
  (topK < 0 -> Search (LexicalStore s) query topK = Panic MakesliceCapOutOfRange).
Proof.
  intros Hne. simpl. rewrite Search_unfold.
  rewrite bool_decide_eq_false_2 by (by destruct (Mock.tools s)).
  split.
  - intros ->. rewrite make_cap_zero. simpl. by rewrite take_0.
  - intros Hlt. by rewrite make_cap_negative.
Qed.

Lemma lexical_search_nonpositive_topK_witness :
  [Examples.fooTool] <> [] /\
  (-1 < 0) /\
  Search (rt := Examples.machine) (lib := ASCII.lib) Examples.fooStore "foo" (-1) =
    Panic MakesliceCapOutOfRange.
Proof.
  split; [discriminate|]. split; [lia|].
  apply (lexical_search_nonpositive_topK (rt := Examples.machine) (lib := ASCII.lib)
           (Mock.mkStore [Examples.fooTool]) "foo" (-1));
    [discriminate | lia].
Defined.

(** C3.  A store that was never built, and a store built from the empty
    tool list, answer every [Search] with the empty list and no error;
    building from the empty list itself succeeds. *)
Theorem empty_index_search_returns_empty {rt : Runtime} {lib : strings.Lib}
    searcher st query topK :
  Search (LexicalStore Mock.NewMockSearchStore) query topK = Ok [] /\
  Search (RerankStore (Codex.NewCodexSearchStore searcher)) query topK = Ok [] /\
  (BuildFromTools st []).2 = Ok tt /\
  Search (BuildFromTools st []).1 query topK = Ok [].
Proof.
  split; [done|]. split; [done|].
  destruct st as [s|s]; simpl; done.
Qed.

(** C4.  The Lexical [Search] returns whenever the run time makes the
    result slice of capacity [topK] (for a [topK] that is negative or
    beyond what can be allocated, [make] panics instead), and what it
    returns is the candidate set of the query (the tools with a
    positive score, or all tools for the empty query), ordered by score
    descending and cut to [topK]; the score of a tool is 3 for each
    query word its lowercased name contains, plus 2 for each one its
    lowercased description contains, plus 1 for each one its lowercased
    category contains.  Lowercasing and the split into words are those
    of the library. *)
Theorem lexical_search_ranking {rt : Runtime} {lib : strings.Lib} s query topK :
  (forall t, Mock.scoreTool (strings.Fields (strings.ToLower query)) t =
             LexicalSpec.score (LexicalSpec.words query) t) /\
  (fits ptrSize topK = true -> exists l, Search (LexicalStore s) query topK = Ok l) /\
  (forall l, Search (LexicalStore s) query topK = Ok l ->
     exists ranking,
       l = take (Z.to_nat topK) ranking /\
       Permutation ranking (LexicalSpec.candidates query (Mock.tools s)) /\
       LexicalSpec.descending query ranking).
Proof.
  split; [intros t; apply scoreTool_spec|].
  simpl. rewrite Search_unfold. split.
  - intros Hk. case_bool_decide; [eauto|].
    rewrite (make_cap_fits _ _ Hk). eauto.
  - intros l Hl. exists (ranked query (Mock.tools s)).
    split; [|split; [apply ranked_perm | apply ranked_descending]].
    case_bool_decide as Hempty.
    + injection Hl as <-. destruct (Mock.tools s); [|done].
      by destruct (Z.to_nat topK).
    + destruct (make_cap Tool topK) as [x| |]; [|done..]. by injection Hl as <-.
Qed.

Lemma lexical_search_ranking_witness :
  fits (rt := Examples.machine) ptrSize 1 = true /\
  Search (rt := Examples.machine) (lib := ASCII.lib)
    Examples.lexicalStore "Deploy the SERVICE" 1 = Ok [Examples.deployTool] /\
  exists ranking,
    [Examples.deployTool] = take (Z.to_nat 1) ranking /\
    Permutation ranking
      (LexicalSpec.candidates (lib := ASCII.lib) "Deploy the SERVICE" Examples.tools) /\
    LexicalSpec.descending (lib := ASCII.lib) "Deploy the SERVICE" ranking.
Proof.
  split; [vm_compute; reflexivity|]. split; [vm_compute; reflexivity|].
  apply (lexical_search_ranking (rt := Examples.machine) (lib := ASCII.lib)
           (Mock.mkStore Examples.tools) "Deploy the SERVICE" 1).
  vm_compute; reflexivity.
Defined.

(** C5.  When the collaborator answers with a list of names, the
    External-Rerank [Search] returns without error; every tool it
    returns is a tool of the catalog whose name the collaborator gave,
    so a name that is not in the catalog is dropped; and it returns at
    most as many tools as the collaborator gave names. *)
Theorem rerank_unknown_names_dropped {rt : Runtime} {lib : strings.Lib}
    s query topK names :
  Codex.SearchTools (Codex.searcher s) query (Codex.schemas s) topK = Ok names ->
  exists results,
    Search (RerankStore s) query topK = Ok results /\
    (length results <= length names)%nat /\
    (forall t, t ∈ results -> t ∈ Codex.tools s /\ Name t ∈ names) /\
    (forall name, name ∉ Name <$> Codex.tools s -> name ∉ Name <$> results).
Proof.
  intros Hn. simpl. rewrite (Search_returned _ _ _ _ Hn).
  eexists; split; [done|].
  assert (forall t,
    t ∈ (if bool_decide (length (Codex.tools s) = 0%nat) then []
         else omap (fun name => Codex.buildToolMap (Codex.tools s) !! name) names) ->
    t ∈ Codex.tools s /\ Name t ∈ names) as Hsound.
  { intros t. case_bool_decide; [by intros ?%elem_of_nil|].
    intros (name & Hin & Hl)%list_elem_of_omap.
    apply buildToolMap_sound in Hl as [Ht <-]. done. }
  split; [|split; [done|]].
  - case_bool_decide; [simpl; lia | apply length_omap_le].
  - intros name Hnot (t & -> & Ht)%list_elem_of_fmap.
    apply Hnot, list_elem_of_fmap_2. by apply Hsound.
Qed.

Lemma rerank_unknown_names_dropped_witness :
  Codex.SearchTools Examples.talkative "deploy"
    (Codex.schemas (Codex.BuildFromTools (Codex.NewCodexSearchStore Examples.talkative)
                      Examples.tools).1) 5 = Ok ["other"; "ghost"; "deploy-tool"] /\
  exists results,
    Search (rt := Examples.machine) (lib := ASCII.lib) Examples.rerankStore "deploy" 5 = Ok results /\
    (length results <= length ["other"; "ghost"; "deploy-tool"])%nat /\
    (forall t, t ∈ results ->
       t ∈ Examples.tools /\ Name t ∈ ["other"; "ghost"; "deploy-tool"]) /\
    (forall name, name ∉ Name <$> Examples.tools -> name ∉ Name <$> results).
Proof.
  split; [reflexivity|].
  apply (rerank_unknown_names_dropped (rt := Examples.machine) (lib := ASCII.lib)
           (Codex.BuildFromTools (Codex.NewCodexSearchStore Examples.talkative)
              Examples.tools).1 "deploy" 5 ["other"; "ghost"; "deploy-tool"]).
  reflexivity.
Defined.

(** C6.  Over a catalog with pairwise-distinct tool names, the
    External-Rerank [Search] returns the collaborator's names in the
    collaborator's order, restricted to the names present in the
    catalog, each mapped to the tool that carries it. *)
Theorem rerank_preserves_order {rt : Runtime} {lib : strings.Lib}
    s query topK names :
  NoDup (Name <$> Codex.tools s) ->
  Codex.SearchTools (Codex.searcher s) query (Codex.schemas s) topK = Ok names ->
  Search (RerankStore s) query topK = Ok (RerankSpec.inOrder (Codex.tools s) names) /\
  Name <$> RerankSpec.inOrder (Codex.tools s) names =
    filter (fun name => name ∈ Name <$> Codex.tools s) names.
Proof.
  intros Hnd Hn. split; [|apply inOrder_names].
  simpl. rewrite (Search_returned _ _ _ _ Hn). f_equal.
  unfold RerankSpec.inOrder. case_bool_decide as Hlen.
  - destruct (Codex.tools s); [|done]. clear.
    induction names as [|n names IH]; [done|]. csimpl. by rewrite <- IH.
  - apply list_omap_ext. apply Forall2_same_length_lookup_2; [done|].
    intros i x y Hx Hy. simplify_eq. by apply buildToolMap_distinct.
Qed.

Lemma rerank_preserves_order_witness :
  NoDup (Name <$> Examples.tools) /\
  Codex.SearchTools Examples.talkative "deploy"
    (Codex.schemas (Codex.BuildFromTools (Codex.NewCodexSearchStore Examples.talkative)
                      Examples.tools).1) 5 = Ok ["other"; "ghost"; "deploy-tool"] /\
  Search (rt := Examples.machine) (lib := ASCII.lib) Examples.rerankStore "deploy" 5 =
    Ok (RerankSpec.inOrder Examples.tools ["other"; "ghost"; "deploy-tool"]) /\
  Name <$> RerankSpec.inOrder Examples.tools ["other"; "ghost"; "deploy-tool"] =
    filter (fun name => name ∈ Name <$> Examples.tools) ["other"; "ghost"; "deploy-tool"].
Proof.
  assert (NoDup (Name <$> Examples.tools)) as Hnd.
  { apply (bool_decide_unpack _). vm_compute. exact I. }
  split; [exact Hnd|]. split; [reflexivity|].
  apply (rerank_preserves_order (rt := Examples.machine) (lib := ASCII.lib)
           (Codex.BuildFromTools (Codex.NewCodexSearchStore Examples.talkative)
              Examples.tools).1 "deploy" 5 ["other"; "ghost"; "deploy-tool"]).
  - exact Hnd.
  - reflexivity.
Defined.

(** C7.  [BuildFromTools] of the External-Rerank strategy projects every
    tool to a metadata record with the tool's name, category and
    description, and with [Parameters] set exactly when the input schema
    is a string-keyed mapping; the build fails only on a mapping that
    cannot be serialized, never on a schema of another shape or on an
    absent one; and when it succeeds the cached payload has one entry
    per tool, holding those fields. *)
Theorem build_projects_metadata s allTools :
  (forall t,
     mdName (Codex.toMetadata t) = Name t /\
     mdCategory (Codex.toMetadata t) = Category t /\
     mdDescription (Codex.toMetadata t) = Description t /\
     forall m, mdParameters (Codex.toMetadata t) = Some m <-> InputSchema t = GoMap m) /\
  ((Codex.BuildFromTools s allTools).2 = Ok tt <-> Forall RerankSpec.encodable allTools) /\
  ((Codex.BuildFromTools s allTools).2 = Ok tt ->
     exists entries,
       Codex.schemas (Codex.BuildFromTools s allTools).1 = Some (JArray entries) /\
       Forall2 RerankSpec.entryFor allTools entries).
Proof.
  split; [apply toMetadata_fields|].
  split; [apply BuildFromTools_result | apply BuildFromTools_payload].
Qed.

Lemma build_projects_metadata_witness :
  (Codex.BuildFromTools (Codex.NewCodexSearchStore Examples.talkative) Examples.tools).2 = Ok tt /\
  exists entries,
    Codex.schemas (Codex.BuildFromTools (Codex.NewCodexSearchStore Examples.talkative)
                     Examples.tools).1 = Some (JArray entries) /\
    Forall2 RerankSpec.entryFor Examples.tools entries.
Proof.
  split; [vm_compute; reflexivity|].
  apply (build_projects_metadata (Codex.NewCodexSearchStore Examples.talkative) Examples.tools).
  vm_compute; reflexivity.
Defined.

Lemma normalize_zero n :
  VectorMath.normalize (replicate n GloVe.f32_zero) = replicate n GloVe.f32_zero.
Proof.
  unfold VectorMath.normalize, VectorMath.norm.
  assert (foldl (fun acc x => GloVe.f32_add acc (VectorMath.f32_mul x x))
            GloVe.f32_zero (replicate n GloVe.f32_zero) = GloVe.f32_zero) as ->.
  { induction n as [|n IH]; [done|]. simpl. exact IH. }
  reflexivity.
Qed.

Lemma keepWord_true w :
  GloVe.keepWord w = true -> (1 < String.length w)%nat /\ w ∉ GloVe.stopWords.
Proof.
  unfold GloVe.keepWord. intros [Hlen Hstop]%andb_true_iff.
  split; [by apply Nat.ltb_lt|].
  apply negb_true_iff, bool_decide_eq_false in Hstop. done.
Qed.

(** C8.  Loading an opened vector file fails only when the scanner
    itself reports an error; otherwise it returns the table that holds
    one entry per line of at least two fields, a later line replacing an
    earlier one for the same word.  A line of fewer than two fields
    leaves the table as it is; a line of at least two fields stores its
    word with one value per remaining field, the parsed number, or zero
    where the field does not parse.  The fields of a line are those the
    library's [strings.Fields] gives. *)
Theorem vector_file_parse_tolerant {lib : strings.Lib} ParseFloat32 os path file :
  GloVe.Open os path = Ok file ->
  GloVe.loadGloVeVectors ParseFloat32 os path =
    match GloVe.scanErr file with
    | Some err => Err err
    | None => Ok (VectorFileSpec.vocabulary ParseFloat32 (GloVe.lines file))
    end /\
  (forall vectors line,
     (length (strings.Fields line) < 2)%nat ->
     GloVe.parseLine ParseFloat32 vectors line = vectors /\
     VectorFileSpec.entryOf ParseFloat32 line = None) /\
  (forall vectors line word fields,
     strings.Fields line = word :: fields -> fields <> [] ->
     GloVe.parseLine ParseFloat32 vectors line =
       <[word := VectorFileSpec.parsedVector ParseFloat32 fields]> vectors /\
     length (VectorFileSpec.parsedVector ParseFloat32 fields) = length fields /\
     forall i s, fields !! i = Some s ->
       VectorFileSpec.parsedVector ParseFloat32 fields !! i =
         Some (match ParseFloat32 s with Some val => val | None => GloVe.f32_zero end)).
Proof.
  intros Ho. split; [|split].
  - apply (loadGloVeVectors_spec _ _ _ _ Ho).
  - intros vectors line Hlen. by apply parseLine_short.
  - intros vectors line word fields Hf Hne. split; [|split].
    + rewrite parseLine_entry. unfold VectorFileSpec.entryOf. rewrite Hf.
      by destruct fields.
    + unfold VectorFileSpec.parsedVector. by rewrite length_fmap.
    + intros i s Hs. unfold VectorFileSpec.parsedVector.
      rewrite list_lookup_fmap, Hs. simpl. by destruct (ParseFloat32 s).
Qed.

Lemma vector_file_parse_tolerant_witness :
  GloVe.Open (Examples.cached Examples.vectorFile) "glove.txt" =
    Ok (GloVe.mkScanned Examples.vectorFile None) /\
  GloVe.loadGloVeVectors (lib := ASCII.lib) Examples.parseDigits
    (Examples.cached Examples.vectorFile) "glove.txt" =
    Ok (VectorFileSpec.vocabulary (lib := ASCII.lib) Examples.parseDigits Examples.vectorFile).
Proof.
  split; [reflexivity|].
  apply (vector_file_parse_tolerant (lib := ASCII.lib) Examples.parseDigits
           (Examples.cached Examples.vectorFile) "glove.txt"
           (GloVe.mkScanned Examples.vectorFile None)); reflexivity.
Defined.

(** C9.  For an embedder that [NewGloVeEmbedder] returned, and a text
    none of whose words is a usable token (each is of length at most 1,
    or a stopword, or absent from the vocabulary; the empty text has no
    words at all), [Generate] returns the all-zero vector of length
    [Dimension()] and no error.  The words of a text are the maximal
    runs of [a-z0-9] in what the library's [strings.ToLower] makes of
    it.  [normalize] is taken with the property the specification gives
    it: the zero vector normalizes to itself. *)
Theorem generate_zero_without_tokens {rt : Runtime} {lib : strings.Lib}
    ParseFloat32 normalize os modelName cacheDir e text :
  (forall n, normalize (replicate n GloVe.f32_zero) = replicate n GloVe.f32_zero) ->
  GloVe.NewGloVeEmbedder ParseFloat32 os modelName cacheDir = Ok e ->
  Forall (fun w => (String.length w <= 1)%nat \/ w ∈ GloVe.stopWords \/
                   GloVe.vectors e !! w = None)
    (strings.FieldsFunc (strings.ToLower text) GloVe.isSeparator) ->
  GloVe.Generate normalize e text = Ok (zeroVector (GloVe.Dimension e)) /\
  Z.of_nat (length (zeroVector (GloVe.Dimension e))) = GloVe.Dimension e /\
  Forall (fun x => x = GloVe.f32_zero) (zeroVector (GloVe.Dimension e)).
Proof.
  intros Hnorm Hnew Hall.
  apply NewGloVeEmbedder_dim in Hnew. unfold GloVe.Dimension.
  split; [|split].
  - apply Generate_zero; [done| |].
    { apply fits_small; unfold float32Size, maxSmallSize; lia. }
    eapply Forall_impl; [exact Hall|]. intros w Hw. simpl in Hw.
    destruct (GloVe.keepWord w) eqn:Hk; [|by left].
    apply keepWord_true in Hk as [Hlen Hstop].
    destruct Hw as [Hw|[Hw|Hw]]; [lia|done|by right].
  - unfold zeroVector. rewrite length_replicate. lia.
  - unfold zeroVector. apply Forall_forall.
    intros x Hx. by apply elem_of_replicate in Hx as [-> _].
Qed.

Lemma generate_zero_without_tokens_witness :
  (forall n, VectorMath.normalize (replicate n GloVe.f32_zero) = replicate n GloVe.f32_zero) /\
  GloVe.NewGloVeEmbedder (lib := ASCII.lib) Examples.parseDigits
    (Examples.cached Examples.vectorFile) "6B.50d" "cache" =
    Ok (GloVe.mkEmbedder
          (VectorFileSpec.vocabulary (lib := ASCII.lib) Examples.parseDigits
             Examples.vectorFile) 50) /\
  GloVe.Generate (rt := Examples.machine) (lib := ASCII.lib) VectorMath.normalize
    (GloVe.mkEmbedder
       (VectorFileSpec.vocabulary (lib := ASCII.lib) Examples.parseDigits
          Examples.vectorFile) 50)
    "The a is, x: unknown" = Ok (zeroVector 50).
Proof.
  split; [exact normalize_zero|]. split; [vm_compute; reflexivity|].
  apply (generate_zero_without_tokens (rt := Examples.machine) (lib := ASCII.lib)
           Examples.parseDigits VectorMath.normalize
           (Examples.cached Examples.vectorFile) "6B.50d" "cache"
           (GloVe.mkEmbedder
              (VectorFileSpec.vocabulary (lib := ASCII.lib) Examples.parseDigits
                 Examples.vectorFile) 50)
           "The a is, x: unknown").
  - exact normalize_zero.
  - vm_compute; reflexivity.
  - change (strings.FieldsFunc (Lib := ASCII.lib)
              (strings.ToLower (Lib := ASCII.lib) "The a is, x: unknown") GloVe.isSeparator)
      with ["the"; "a"; "is"; "x"; "unknown"].
    repeat (apply Forall_cons; split;
            [first [ left; vm_compute; lia
                   | right; left; apply (bool_decide_unpack _); vm_compute; exact I
                   | right; right; vm_compute; reflexivity ]|]).
    apply Forall_nil_2.
Defined.

(** C10.  The claim fails on the code.  A vector file whose line for
    "hello" has one value is loaded as it is by the model of dimension
    50: the stored vector is shorter than [Dimension()], and
    [Generate("hello")] then panics with an index out of range, whatever
    the number parser and the normalization are. *)
Theorem short_vector_makes_generate_panic {rt : Runtime} ParseFloat32 normalize :
  exists e,
    GloVe.NewGloVeEmbedder (lib := ASCII.lib) ParseFloat32
      (Examples.cached Examples.shortFile) "6B.50d" "cache" = Ok e /\
    (exists vec, GloVe.vectors e !! "hello" = Some vec /\
                 Z.of_nat (length vec) < GloVe.Dimension e) /\
    GloVe.Generate (lib := ASCII.lib) normalize e "hello" = Panic (IndexOutOfRange 1 1).
Proof.
  assert (GloVe.make_f32 50 = Ok (replicate (Z.to_nat 50) GloVe.f32_zero)) as Hmake.
  { apply make_f32_fits, fits_small; unfold float32Size, maxSmallSize; lia. }
  destruct (ParseFloat32 "1") as [val|] eqn:Hp.
  - exists (GloVe.mkEmbedder {[ "hello" := [val] ]} 50).
    split; [|split].
    + unfold GloVe.NewGloVeEmbedder, GloVe.loadGloVeVectors. simpl.
      unfold GloVe.parseLine. simpl. by rewrite Hp.
    + exists [val]. split; [reflexivity | simpl; lia].
    + unfold GloVe.Generate. simpl GloVe.dim. rewrite Hmake. reflexivity.
  - exists (GloVe.mkEmbedder {[ "hello" := [GloVe.f32_zero] ]} 50).
    split; [|split].
    + unfold GloVe.NewGloVeEmbedder, GloVe.loadGloVeVectors. simpl.
      unfold GloVe.parseLine. simpl. by rewrite Hp.
    + exists [GloVe.f32_zero]. split; [reflexivity | simpl; lia].
    + unfold GloVe.Generate. simpl GloVe.dim. rewrite Hmake. reflexivity.
Qed.

(** ** Further properties of the code *)

(** *** More on the exchange sort *)

Section SortedInput.
Import Mock.

Lemma for_steps_fixed {S : Type} (body : nat -> S -> S) (s : S) n j :
  (forall k, body k s = s) -> for_steps n j body s = s.
Proof.
  intros Hid. revert j. induction n as [|n IH]; intros j; simpl; [done|].
  by rewrite Hid.
Qed.

Lemma StronglySorted_lookup_le (a : list scoredTool) i j x y :
  StronglySorted (fun x y => score y <= score x) a ->
  (i < j)%nat -> a !! i = Some x -> a !! j = Some y -> score y <= score x.
Proof.
  intros Hs. revert i j. induction Hs as [|z a Hs IH Hall]; intros i j Hij Hi Hj.
  - done.
  - destruct i as [|i], j as [|j]; try lia; simpl in *.
    + simplify_eq. rewrite Forall_forall in Hall. apply Hall.
      by eapply list_elem_of_lookup_2.
    + apply (IH i j); [lia|done|done].
Qed.

Lemma swapIfGreater_sorted (a : list scoredTool) i j :
  StronglySorted (fun x y => score y <= score x) a ->
  (i < j)%nat -> swapIfGreater i j a = a.
Proof.
  intros Hs Hij. unfold swapIfGreater.
  destruct (a !! i) as [si|] eqn:Hi; [|done].
  destruct (a !! j) as [sj|] eqn:Hj; [|done].
  pose proof (StronglySorted_lookup_le a i j si sj Hs Hij Hi Hj).
  destruct (Z.ltb_spec (score si) (score sj)); [lia|done].
Qed.

Lemma for_steps_swap_sorted (a : list scoredTool) i n j :
  StronglySorted (fun x y => score y <= score x) a ->
  (i < j)%nat ->
  for_steps n j (fun j a => swapIfGreater i j a) a = a.
Proof.
  intros Hs. revert j. induction n as [|n IH]; intros j Hij; simpl; [done|].
  rewrite swapIfGreater_sorted by done. apply IH. lia.
Qed.

Lemma innerLoop_sorted (a : list scoredTool) i :
  StronglySorted (fun x y => score y <= score x) a -> innerLoop i a = a.
Proof.
  intros Hs. unfold innerLoop, for_loop. apply for_steps_swap_sorted; [done|lia].
Qed.

Lemma sortByScore_sorted_id (a : list scoredTool) :
  StronglySorted (fun x y => score y <= score x) a -> sortByScore a = a.
Proof.
  intros Hs. unfold sortByScore, for_loop. apply for_steps_fixed.
  intros k. by apply innerLoop_sorted.
Qed.

End SortedInput.

(** X1.  The exchange sort of [Search] leaves a list that is already in
    descending score order as it is (equal scores are never swapped),
    so sorting twice is sorting once. *)
Theorem sortByScore_idempotent (a : list Mock.scoredTool) :
  (StronglySorted (fun x y => Mock.score y <= Mock.score x) a -> Mock.sortByScore a = a) /\
  Mock.sortByScore (Mock.sortByScore a) = Mock.sortByScore a.
Proof.
  split; [apply sortByScore_sorted_id|].
  apply sortByScore_sorted_id, sortByScore_sorted.
Qed.

Lemma sortByScore_idempotent_witness :
  let a := [Mock.mkScored Examples.deployTool 5; Mock.mkScored Examples.otherTool 1] in
  StronglySorted (fun x y => Mock.score y <= Mock.score x) a /\ Mock.sortByScore a = a.
Proof.
  assert (StronglySorted (fun x y => Mock.score y <= Mock.score x)
            [Mock.mkScored Examples.deployTool 5; Mock.mkScored Examples.otherTool 1]) as Hs.
  { repeat constructor. simpl. lia. }
  split; [exact Hs|].
  exact (proj1 (sortByScore_idempotent
           [Mock.mkScored Examples.deployTool 5; Mock.mkScored Examples.otherTool 1]) Hs).
Defined.

(** *** More on the Lexical [Search] *)

Section LexicalMore.
Import Mock.

Context {lib : strings.Lib}.

Lemma take_ranked_sound query ts k :
  take k (ranked query ts) ⊆+ ts /\
  Forall (LexicalSpec.eligible query) (take k (ranked query ts)).
Proof.
  assert (ranked query ts ⊆+ ts) as Hsub.
  { rewrite ranked_perm. apply sublist_submseteq, sublist_filter. }
  split.
  - etrans; [|exact Hsub]. apply sublist_submseteq, sublist_take.
  - apply Forall_forall. intros t Ht.
    assert (t ∈ ranked query ts) as Hin.
    { eapply elem_of_submseteq; [exact Ht|]. apply sublist_submseteq, sublist_take. }
    rewrite ranked_perm in Hin. unfold LexicalSpec.candidates in Hin.
    by apply list_elem_of_filter in Hin as [? _].
Qed.

Lemma score_nil t : LexicalSpec.score [] t = 0.
Proof. reflexivity. Qed.

Lemma matches_bounds field ws :
  0 <= LexicalSpec.matches field ws <= Z.of_nat (length ws).
Proof.
  unfold LexicalSpec.matches. split; [lia|].
  apply Nat2Z.inj_le, length_filter.
Qed.

Lemma candidates_no_words query ts :
  query <> "" -> LexicalSpec.words query = [] -> LexicalSpec.candidates query ts = [].
Proof.
  intros Hq Hw. unfold LexicalSpec.candidates.
  induction ts as [|t ts IH]; [done|].
  rewrite filter_cons_False; [done|].
  unfold LexicalSpec.eligible. rewrite Hw, score_nil. intros [?|?]; [lia|done].
Qed.

Lemma candidates_empty_query ts : LexicalSpec.candidates "" ts = ts.
Proof.
  unfold LexicalSpec.candidates. induction ts as [|t ts IH]; [done|].
  rewrite filter_cons_True; [by rewrite IH|]. by right.
Qed.

Lemma ranked_empty_query ts : LexicalSpec.words "" = [] -> ranked "" ts = ts.
Proof.
  intros Hw. unfold ranked. rewrite candidates_empty_query.
  rewrite sortByScore_sorted_id.
  - rewrite <- list_fmap_compose. apply list_fmap_id.
  - induction ts as [|t ts IH]; simpl; constructor; [done|].
    apply Forall_fmap, Forall_true. intros u. unfold scoredOf. simpl.
    by rewrite Hw, !score_nil.
Qed.

End LexicalMore.




(** X2.  For the empty query the Lexical [Search] returns the first
    [topK] tools of the catalog, in catalog order, whenever the run
    time makes the result slice.  The empty query has no words. *)
Theorem lexical_empty_query_catalog_order {rt : Runtime} {lib : strings.Lib} s topK :
  strings.Fields (strings.ToLower "") = [] ->
  fits ptrSize topK = true ->
  Search (LexicalStore s) "" topK = Ok (take (Z.to_nat topK) (Mock.tools s)).
Proof.
  intros Hw Hk. simpl. rewrite Search_unfold. case_bool_decide as Hempty.
  - destruct (Mock.tools s); [|done]. by rewrite take_nil.
  - rewrite (make_cap_fits _ _ Hk). by rewrite ranked_empty_query.
Qed.

Lemma lexical_empty_query_catalog_order_witness :
  strings.Fields (Lib := ASCII.lib) (strings.ToLower (Lib := ASCII.lib) "") = [] /\
  fits (rt := Examples.machine) ptrSize 1 = true /\
  Search (rt := Examples.machine) (lib := ASCII.lib) Examples.lexicalStore "" 1 = Ok [Examples.deployTool].
Proof.
  split; [reflexivity|]. split; [vm_compute; reflexivity|].
  apply (lexical_empty_query_catalog_order (rt := Examples.machine) (lib := ASCII.lib)
           (Mock.mkStore Examples.tools) 1); [reflexivity | vm_compute; reflexivity].
Defined.

(** X3.  A query that is not empty but has no words (it holds white
    space only) matches no tool: the Lexical [Search] returns the empty
    list for it whenever the run time makes the result slice, where the
    empty query matches every tool. *)
Theorem lexical_blank_query_returns_nothing {rt : Runtime} {lib : strings.Lib}
    s query topK :
  query <> "" -> strings.Fields (strings.ToLower query) = [] ->
  fits ptrSize topK = true ->
  Search (LexicalStore s) query topK = Ok [].
Proof.
  intros Hq Hb Hk. simpl. rewrite Search_unfold. case_bool_decide; [done|].
  rewrite (make_cap_fits _ _ Hk).
  unfold ranked. rewrite candidates_no_words; [|done|done].
  by destruct (Z.to_nat topK).
Qed.

Lemma lexical_blank_query_returns_nothing_witness :
  "  " <> "" /\
  strings.Fields (Lib := ASCII.lib) (strings.ToLower (Lib := ASCII.lib) "  ") = [] /\
  fits (rt := Examples.machine) ptrSize 10 = true /\
  Search (rt := Examples.machine) (lib := ASCII.lib) Examples.lexicalStore "  " 10 = Ok [].
Proof.
  split; [discriminate|]. split; [reflexivity|]. split; [vm_compute; reflexivity|].
  apply (lexical_blank_query_returns_nothing (rt := Examples.machine) (lib := ASCII.lib)
           (Mock.mkStore Examples.tools) "  " 10);
    [discriminate | reflexivity | vm_compute; reflexivity].
Defined.

(** X4.  Every tool the Lexical [Search] returns is a tool of the
    catalog, returned no more often than the catalog holds it, and it
    has a positive score unless the query is empty. *)
Theorem lexical_results_from_catalog {rt : Runtime} {lib : strings.Lib}
    s query topK l :
  Search (LexicalStore s) query topK = Ok l ->
  l ⊆+ Mock.tools s /\
  Forall (fun t => 0 < Mock.scoreTool (strings.Fields (strings.ToLower query)) t \/ query = "") l.
Proof.
  simpl. rewrite Search_unfold. case_bool_decide.
  - intros [= <-]. split; [apply submseteq_nil_l | constructor].
  - destruct (make_cap Tool topK) as [x| |]; [|done..]. intros [= <-].
    destruct (take_ranked_sound query (Mock.tools s) (Z.to_nat topK)) as [Hsub Hel].
    split; [done|]. eapply Forall_impl; [exact Hel|].
    intros t Ht. rewrite scoreTool_spec. exact Ht.
Qed.

Lemma lexical_results_from_catalog_witness :
  Search (rt := Examples.machine) (lib := ASCII.lib) Examples.lexicalStore "deploy" 5 =
    Ok [Examples.deployTool; Examples.otherTool] /\
  [Examples.deployTool; Examples.otherTool] ⊆+ Examples.tools.
Proof.
  split; [vm_compute; reflexivity|].
  apply (lexical_results_from_catalog (rt := Examples.machine) (lib := ASCII.lib) (Mock.mkStore Examples.tools) "deploy" 5).
  vm_compute; reflexivity.
Defined.

(** X5.  The Lexical [Search] returns [min(topK, number of candidates)]
    tools, and no candidate it leaves out has a higher score than a tool
    it returns. *)
Theorem lexical_search_keeps_best {rt : Runtime} {lib : strings.Lib}
    s query topK l :
  Search (LexicalStore s) query topK = Ok l ->
  exists dropped,
    Permutation (l ++ dropped) (LexicalSpec.candidates query (Mock.tools s)) /\
    length l = Nat.min (Z.to_nat topK) (length (LexicalSpec.candidates query (Mock.tools s))) /\
    forall t u, t ∈ l -> u ∈ dropped ->
      Mock.scoreTool (strings.Fields (strings.ToLower query)) u <=
      Mock.scoreTool (strings.Fields (strings.ToLower query)) t.
Proof.
  simpl. rewrite Search_unfold.
  assert (forall k,
    Permutation (take k (ranked query (Mock.tools s)) ++ drop k (ranked query (Mock.tools s)))
      (LexicalSpec.candidates query (Mock.tools s)) /\
    length (take k (ranked query (Mock.tools s))) =
      Nat.min k (length (LexicalSpec.candidates query (Mock.tools s))) /\
    forall t u, t ∈ take k (ranked query (Mock.tools s)) ->
      u ∈ drop k (ranked query (Mock.tools s)) ->
      Mock.scoreTool (strings.Fields (strings.ToLower query)) u <=
      Mock.scoreTool (strings.Fields (strings.ToLower query)) t) as Hgen.
  { intros k. split; [|split].
    - rewrite take_drop. apply ranked_perm.
    - rewrite length_take. by rewrite (Permutation_length (ranked_perm query (Mock.tools s))).
    - intros t u Ht Hu. rewrite !scoreTool_spec.
      pose proof (ranked_descending query (Mock.tools s)) as Hd.
      unfold LexicalSpec.descending in Hd.
      rewrite <- (take_drop k (ranked query (Mock.tools s))) in Hd.
      by apply (StronglySorted_app_1_elem_of _ _ _ _ _ Hd). }
  case_bool_decide as Hempty.
  - intros [= <-]. destruct (Mock.tools s) eqn:Hts; [|done].
    exists []. split; [done|]. split; [simpl; lia|]. intros t u Ht. by apply elem_of_nil in Ht.
  - destruct (make_cap Tool topK) as [x| |]; [|done..]. intros [= <-].
    exists (drop (Z.to_nat topK) (ranked query (Mock.tools s))). apply Hgen.
Qed.

Lemma lexical_search_keeps_best_witness :
  Search (rt := Examples.machine) (lib := ASCII.lib) Examples.lexicalStore "deploy" 1 =
    Ok [Examples.deployTool] /\
  exists dropped,
    Permutation ([Examples.deployTool] ++ dropped)
      (LexicalSpec.candidates (lib := ASCII.lib) "deploy" Examples.tools) /\
    length [Examples.deployTool] =
      Nat.min (Z.to_nat 1)
        (length (LexicalSpec.candidates (lib := ASCII.lib) "deploy" Examples.tools)) /\
    forall t u, t ∈ [Examples.deployTool] -> u ∈ dropped ->
      Mock.scoreTool (lib := ASCII.lib) (ASCII.Fields (ASCII.ToLower "deploy")) u <=
      Mock.scoreTool (lib := ASCII.lib) (ASCII.Fields (ASCII.ToLower "deploy")) t.
Proof.
  split; [vm_compute; reflexivity|].
  apply (lexical_search_keeps_best (rt := Examples.machine) (lib := ASCII.lib) (Mock.mkStore Examples.tools) "deploy" 1).
  vm_compute; reflexivity.
Defined.

(** X6.  The score of a tool lies between 0 and six times the number of
    query words. *)
Theorem scoreTool_bounds {lib : strings.Lib} queryWords t :
  0 <= Mock.scoreTool queryWords t <= 6 * Z.of_nat (length queryWords).
Proof.
  rewrite scoreTool_spec. unfold LexicalSpec.score.
  pose proof (matches_bounds (Name t) queryWords).
  pose proof (matches_bounds (Description t) queryWords).
  pose proof (matches_bounds (Category t) queryWords). lia.
Qed.



(** X22.  Raising [topK] only extends the answer of the Lexical
    [Search]: the answer for a smaller [topK] is a prefix of the answer
    for a larger one. *)
Theorem lexical_search_prefix {rt : Runtime} {lib : strings.Lib}
    s query topK topK' l l' :
  topK <= topK' ->
  Search (LexicalStore s) query topK = Ok l ->
  Search (LexicalStore s) query topK' = Ok l' ->
  l = take (Z.to_nat topK) l'.
Proof.
  intros Hle. simpl. rewrite !Search_unfold. case_bool_decide.
  - intros [= <-] [= <-]. by rewrite take_nil.
  - destruct (make_cap Tool topK) as [x| |]; [|done..].
    destruct (make_cap Tool topK') as [x'| |]; [|done..].
    intros [= <-] [= <-]. rewrite take_take. f_equal. lia.
Qed.

Lemma lexical_search_prefix_witness :
  1 <= 2 /\
  Search (rt := Examples.machine) (lib := ASCII.lib) Examples.lexicalStore "deploy" 1 =
    Ok [Examples.deployTool] /\
  Search (rt := Examples.machine) (lib := ASCII.lib) Examples.lexicalStore "deploy" 2 =
    Ok [Examples.deployTool; Examples.otherTool] /\
  [Examples.deployTool] = take (Z.to_nat 1) [Examples.deployTool; Examples.otherTool].
Proof.
  split; [lia|]. split; [vm_compute; reflexivity|]. split; [vm_compute; reflexivity|].
  apply (lexical_search_prefix (rt := Examples.machine) (lib := ASCII.lib) (Mock.mkStore Examples.tools) "deploy" 1 2);
    [lia | vm_compute; reflexivity | vm_compute; reflexivity].
Defined.

(** *** Maps filled by a loop of insertions *)

Lemma insert_foldl_lookup {A V : Type} (key : A -> string) (val : A -> V)
    (l : list A) (k : string) :
  foldl (fun (m : gmap string V) x => <[key x := val x]> m) ∅ l !! k =
  val <$> findLast key l k.
Proof.
  unfold findLast. induction l as [|x l IH] using rev_ind.
  - simpl. by rewrite lookup_empty.
  - rewrite foldl_snoc, reverse_snoc. simpl.
    case_bool_decide as Hk.
    + subst k. by rewrite lookup_insert_eq.
    + rewrite lookup_insert_ne by done. exact IH.
Qed.

Lemma findLast_Some {A : Type} (key : A -> string) (l : list A) k x :
  findLast key l k = Some x -> x ∈ l /\ key x = k.
Proof.
  unfold findLast. intros H. apply find_some in H as [Hin Hk].
  apply bool_decide_eq_true in Hk. split; [|done].
  apply elem_of_reverse, list_elem_of_In. exact Hin.
Qed.

Lemma findLast_is_Some {A : Type} (key : A -> string) (l : list A) k :
  is_Some (findLast key l k) <-> k ∈ key <$> l.
Proof.
  unfold findLast. split.
  - intros [x Hx]. apply findLast_Some in Hx as [Hin <-]. by apply list_elem_of_fmap_2.
  - intros (x & -> & Hin)%list_elem_of_fmap.
    destruct (List.find _ (reverse l)) as [y|] eqn:Hf; [by eexists|].
    assert (In x (reverse l)) as Hin'.
    { apply list_elem_of_In, elem_of_reverse. exact Hin. }
    pose proof (find_none _ _ Hf x Hin') as Hn. simpl in Hn.
    by rewrite bool_decide_eq_true_2 in Hn.
Qed.

Section RerankMore.
Import Codex.

Lemma buildToolMap_last ts name :
  buildToolMap ts !! name = findLast Name ts name.
Proof.
  unfold buildToolMap.
  pose proof (insert_foldl_lookup Name id ts name) as H. simpl in H.
  rewrite H. by destruct (findLast Name ts name).
Qed.

Lemma Search_last (s : CodexSearchStore) query topK names :
  SearchTools (searcher s) query (schemas s) topK = Ok names ->
  Search s query topK = Ok (omap (findLast Name (tools s)) names).
Proof.
  intros Hn. rewrite (Search_returned _ _ _ _ Hn). f_equal.
  case_bool_decide as Hlen.
  - destruct (tools s); [|done]. clear.
    induction names as [|n names IH]; [done|]. csimpl. by rewrite <- IH.
  - apply list_omap_ext. apply Forall2_same_length_lookup_2; [done|].
    intros i x y Hx Hy. simplify_eq. apply buildToolMap_last.
Qed.

Lemma omap_findLast_names (ts : list Tool) names :
  Forall (fun name => name ∈ Name <$> ts) names ->
  Name <$> omap (findLast Name ts) names = names.
Proof.
  induction 1 as [|n names Hn _ IH]; csimpl; [done|].
  apply findLast_is_Some in Hn as [t Ht]. rewrite Ht. csimpl.
  apply findLast_Some in Ht as [_ ->]. by rewrite IH.
Qed.

End RerankMore.

(** X8.  When several tools of the catalog carry one name, the
    External-Rerank [Search] maps that name to the last of them. *)
Theorem rerank_duplicate_names_last_wins {rt : Runtime} {lib : strings.Lib}
    s query topK names :
  Codex.SearchTools (Codex.searcher s) query (Codex.schemas s) topK = Ok names ->
  Search (RerankStore s) query topK = Ok (omap (findLast Name (Codex.tools s)) names).
Proof. apply Search_last. Qed.

Lemma rerank_duplicate_names_last_wins_witness :
  let s := (Codex.BuildFromTools (Codex.NewCodexSearchStore MoreExamples.twinSearcher)
              [MoreExamples.twin1; MoreExamples.twin2]).1 in
  Codex.SearchTools (Codex.searcher s) "q" (Codex.schemas s) 3 = Ok ["twin"] /\
  Search (rt := Examples.machine) (lib := ASCII.lib) (RerankStore s) "q" 3 = Ok [MoreExamples.twin2].
Proof.
  split; [reflexivity|].
  exact (rerank_duplicate_names_last_wins (rt := Examples.machine) (lib := ASCII.lib)
           (Codex.BuildFromTools (Codex.NewCodexSearchStore MoreExamples.twinSearcher)
              [MoreExamples.twin1; MoreExamples.twin2]).1 "q" 3 ["twin"] eq_refl).
Defined.

(** X9.  When every name the collaborator returns is the name of a
    catalog tool, the External-Rerank [Search] returns one tool per
    name, and the names of the tools returned are the collaborator's
    list. *)
Theorem rerank_known_names_round_trip {rt : Runtime} {lib : strings.Lib}
    s query topK names :
  Forall (fun name => name ∈ Name <$> Codex.tools s) names ->
  Codex.SearchTools (Codex.searcher s) query (Codex.schemas s) topK = Ok names ->
  exists results,
    Search (RerankStore s) query topK = Ok results /\
    Name <$> results = names /\
    length results = length names.
Proof.
  intros Hall Hn. simpl. rewrite (Search_last _ _ _ _ Hn).
  eexists. split; [done|].
  pose proof (omap_findLast_names (Codex.tools s) names Hall) as Hnames.
  split; [done|]. by rewrite <- Hnames at 2; rewrite length_fmap.
Qed.

Lemma rerank_known_names_round_trip_witness :
  let s := (Codex.BuildFromTools
              (Codex.NewCodexSearchStore
                 (Codex.mkSearcher (fun _ _ _ => Ok ["other"; "deploy-tool"; "other"])))
              Examples.tools).1 in
  Forall (fun name => name ∈ Name <$> Codex.tools s) ["other"; "deploy-tool"; "other"] /\
  exists results,
    Search (rt := Examples.machine) (lib := ASCII.lib) (RerankStore s) "q" 1 = Ok results /\
    Name <$> results = ["other"; "deploy-tool"; "other"] /\
    length results = length ["other"; "deploy-tool"; "other"].
Proof.
  assert (Forall (fun name => name ∈ Name <$> Examples.tools)
            ["other"; "deploy-tool"; "other"]) as Hall.
  { repeat constructor; apply (bool_decide_unpack _); vm_compute; exact I. }
  split; [exact Hall|].
  exact (rerank_known_names_round_trip (rt := Examples.machine) (lib := ASCII.lib)
           (Codex.BuildFromTools
              (Codex.NewCodexSearchStore
                 (Codex.mkSearcher (fun _ _ _ => Ok ["other"; "deploy-tool"; "other"])))
              Examples.tools).1 "q" 1 ["other"; "deploy-tool"; "other"] Hall eq_refl).
Defined.

(** X10.  [BuildFromTools] of the External-Rerank strategy replaces the
    tool list, and with it the tool count, whether or not the
    serialization succeeds; when it fails the build returns the wrapped
    error and the payload cached by the previous build stays in place. *)
Theorem rerank_failed_build_keeps_old_payload s allTools :
  Codex.tools (Codex.BuildFromTools s allTools).1 = allTools /\
  Codex.GetToolCount (Codex.BuildFromTools s allTools).1 = Z.of_nat (length allTools) /\
  Codex.searcher (Codex.BuildFromTools s allTools).1 = Codex.searcher s /\
  (~ Forall RerankSpec.encodable allTools ->
   Codex.schemas (Codex.BuildFromTools s allTools).1 = Codex.schemas s /\
   exists e, (Codex.BuildFromTools s allTools).2 =
             Err ("failed to marshal tool schemas: " +:+ e)).
Proof.
  pose proof (BuildFromTools_result s allTools) as Hres.
  unfold Codex.GetToolCount. unfold Codex.BuildFromTools in *.
  destruct (json_Marshal _) as [payload|e|p] eqn:Hm; simpl in *.
  - split; [done|]. split; [done|]. split; [done|].
    intros Hne. exfalso. apply Hne. by apply Hres.
  - split; [done|]. split; [done|]. split; [done|].
    intros _. split; [done|]. by exists e.
  - unfold json_Marshal in Hm. by destruct (mapM _ _).
Qed.

Lemma rerank_failed_build_keeps_old_payload_witness :
  let s := (Codex.BuildFromTools (Codex.NewCodexSearchStore Examples.talkative)
              Examples.tools).1 in
  ~ Forall RerankSpec.encodable [MoreExamples.channelTool] /\
  Codex.schemas (Codex.BuildFromTools s [MoreExamples.channelTool]).1 = Codex.schemas s /\
  Codex.tools (Codex.BuildFromTools s [MoreExamples.channelTool]).1 = [MoreExamples.channelTool].
Proof.
  assert (~ Forall RerankSpec.encodable [MoreExamples.channelTool]) as Hne.
  { intros H. apply Forall_cons in H as [[x Hx] _]. vm_compute in Hx. discriminate. }
  split; [exact Hne|]. split.
  - exact (proj1 (proj2 (proj2 (proj2 (rerank_failed_build_keeps_old_payload
       (Codex.BuildFromTools (Codex.NewCodexSearchStore Examples.talkative) Examples.tools).1
       [MoreExamples.channelTool]))) Hne)).
  - reflexivity.
Defined.

(** X11.  On a non-empty catalog a failure of the collaborator is
    returned by [Search] as an error that wraps it. *)
Theorem rerank_collaborator_failure_surfaces {rt : Runtime} {lib : strings.Lib}
    s query topK e :
  Codex.tools s <> [] ->
  Codex.SearchTools (Codex.searcher s) query (Codex.schemas s) topK = Err e ->
  Search (RerankStore s) query topK = Err ("codex search failed: " +:+ e).
Proof.
  intros Hne He. simpl. unfold Codex.Search.
  rewrite bool_decide_eq_false_2 by (by destruct (Codex.tools s)).
  by rewrite He.
Qed.

Lemma rerank_collaborator_failure_surfaces_witness :
  Codex.tools (Codex.mkStore MoreExamples.failing Examples.tools None) <> [] /\
  Codex.SearchTools MoreExamples.failing "q" None 3 = Err "exit status 1" /\
  Search (rt := Examples.machine) (lib := ASCII.lib)
    (RerankStore (Codex.mkStore MoreExamples.failing Examples.tools None)) "q" 3 =
    Err "codex search failed: exit status 1".
Proof.
  split; [discriminate|]. split; [reflexivity|].
  apply (rerank_collaborator_failure_surfaces (rt := Examples.machine) (lib := ASCII.lib)
           (Codex.mkStore MoreExamples.failing Examples.tools None) "q" 3 "exit status 1");
    [discriminate | reflexivity].
Defined.

(** *** Fields and tokens *)

Section Tokens.
Import GloVe.





End Tokens.

(** *** The accumulation loop of [Generate] *)

Section Accumulate.
Import GloVe EmbeddingSpec.

Lemma addAt_ok vec i embedding x y :
  embedding !! i = Some x -> vec !! i = Some y ->
  addAt vec i embedding = Ok (<[i := f32_add x y]> embedding).
Proof. intros Hx Hy. unfold addAt. by rewrite Hx, Hy. Qed.

Lemma addLoop_ok n : forall j (embedding vec : list float32),
  (j + n <= length embedding)%nat -> (j + n <= length vec)%nat ->
  exists embedding',
    for_stepsM n j (addAt vec) embedding = Ok embedding' /\
    length embedding' = length embedding /\
    (forall i, (i < j \/ j + n <= i)%nat -> embedding' !! i = embedding !! i) /\
    (forall i x y, (j <= i < j + n)%nat ->
       embedding !! i = Some x -> vec !! i = Some y ->
       embedding' !! i = Some (f32_add x y)).
Proof.
  induction n as [|n IH]; intros j embedding vec He Hv; simpl.
  - exists embedding. split; [done|]. split; [done|]. split; [done|]. intros; lia.
  - destruct (lookup_lt_is_Some_2 embedding j) as [x Hx]; [lia|].
    destruct (lookup_lt_is_Some_2 vec j) as [y Hy]; [lia|].
    rewrite (addAt_ok _ _ _ _ _ Hx Hy). simpl.
    destruct (IH (S j) (<[j := f32_add x y]> embedding) vec) as (e' & Hrun & Hlen & Hout & Hin).
    { rewrite length_insert. lia. } { lia. }
    exists e'. split; [done|]. rewrite length_insert in Hlen. split; [done|]. split.
    + intros i Hi. rewrite Hout by lia. apply list_lookup_insert_ne. lia.
    + intros i x' y' Hi Hx' Hy'. destruct (decide (i = j)) as [->|Hne].
      * rewrite Hout by lia. rewrite list_lookup_insert_eq by lia. congruence.
      * apply Hin; [lia| |done]. by rewrite list_lookup_insert_ne.
Qed.

Lemma addLoop_zip (embedding vec : list float32) :
  (length embedding <= length vec)%nat ->
  for_stepsM (length embedding) 0 (addAt vec) embedding = Ok (zip_with f32_add embedding vec).
Proof.
  intros Hle.
  destruct (addLoop_ok (length embedding) 0 embedding vec) as (e' & Hrun & Hlen & _ & Hin);
    [lia|lia|].
  rewrite Hrun. f_equal. apply list_eq. intros i.
  rewrite lookup_zip_with.
  destruct (embedding !! i) as [x|] eqn:Hx; simpl.
  - assert (i < length embedding)%nat by by eapply lookup_lt_Some.
    destruct (lookup_lt_is_Some_2 vec i) as [y Hy]; [lia|].
    rewrite Hy. simpl. apply Hin; [lia|done|done].
  - apply lookup_ge_None. rewrite Hlen. by apply lookup_ge_None.
Qed.

Lemma addLoop_short n : forall j (embedding vec : list float32),
  (j + n <= length embedding)%nat -> (j <= length vec < j + n)%nat ->
  for_stepsM n j (addAt vec) embedding =
    Panic (IndexOutOfRange (Z.of_nat (length vec)) (Z.of_nat (length vec))).
Proof.
  induction n as [|n IH]; intros j embedding vec He Hv; simpl; [lia|].
  destruct (lookup_lt_is_Some_2 embedding j) as [x Hx]; [lia|].
  destruct (decide (j = length vec)) as [->|Hne].
  - unfold addAt. rewrite Hx. rewrite (lookup_ge_None_2 vec (length vec)) by lia. done.
  - destruct (lookup_lt_is_Some_2 vec j) as [y Hy]; [lia|].
    rewrite (addAt_ok _ _ _ _ _ Hx Hy). simpl.
    apply IH; [rewrite length_insert; lia | lia].
Qed.

Lemma accumulate_ok e words : forall embedding count,
  Z.of_nat (length embedding) = dim e ->
  Forall (fun vec => dim e <= Z.of_nat (length vec)) (found e words) ->
  accumulate e words embedding count =
    Ok (foldl (zip_with f32_add) embedding (found e words),
        count + Z.of_nat (length (found e words))).
Proof.
  unfold found. induction words as [|w words IH]; intros embedding count Hlen Hall; csimpl.
  - f_equal. f_equal. lia.
  - csimpl in Hall. destruct (vectors e !! w) as [vec|] eqn:Hw; csimpl.
    + apply Forall_cons in Hall as [Hvec Hall].
      replace (Z.to_nat (dim e)) with (length embedding) by lia.
      rewrite addLoop_zip by lia. simpl.
      rewrite IH; [|rewrite length_zip_with_l; lia|done].
      f_equal. f_equal. lia.
    + by apply IH.
Qed.

Lemma accumulate_short e words : forall embedding count,
  Z.of_nat (length embedding) = dim e ->
  Exists (fun vec => Z.of_nat (length vec) < dim e) (found e words) ->
  exists p, accumulate e words embedding count = Panic p.
Proof.
  unfold found. induction words as [|w words IH]; intros embedding count Hlen Hex; csimpl.
  - csimpl in Hex. by apply Exists_nil in Hex.
  - csimpl in Hex. destruct (vectors e !! w) as [vec|] eqn:Hw; csimpl.
    + destruct (decide (Z.of_nat (length vec) < dim e)) as [Hshort|Hlong].
      * replace (Z.to_nat (dim e)) with (length embedding) by lia.
        rewrite (addLoop_short (length embedding) 0) by lia. simpl. eauto.
      * apply Exists_cons in Hex as [Hex|Hex]; [lia|].
        replace (Z.to_nat (dim e)) with (length embedding) by lia.
        rewrite addLoop_zip by lia. simpl.
        apply IH; [rewrite length_zip_with_l; lia | done].
    + by apply IH.
Qed.

Lemma length_sumVectors d vecs :
  0 <= d -> Forall (fun vec => d <= Z.of_nat (length vec)) vecs ->
  Z.of_nat (length (sumVectors d vecs)) = d.
Proof.
  intros Hd. unfold sumVectors.
  assert (forall acc, Z.of_nat (length acc) = d ->
            Forall (fun vec => d <= Z.of_nat (length vec)) vecs ->
            Z.of_nat (length (foldl (zip_with f32_add) acc vecs)) = d) as Hgen.
  { induction vecs as [|vec vecs IH]; intros acc Hacc Hall; simpl; [done|].
    apply Forall_cons in Hall as [Hvec Hall].
    apply IH; [rewrite length_zip_with_l; lia | done]. }
  apply Hgen. unfold zeroVector. rewrite length_replicate. lia.
Qed.

End Accumulate.

(** *** [Generate] *)

Section GenerateMore.
Import GloVe EmbeddingSpec.

Context {rt : Runtime} {lib : strings.Lib}.
Variable normalize : list float32 -> list float32.

Lemma Generate_long e text :
  fits float32Size (dim e) = true ->
  Forall (fun vec => dim e <= Z.of_nat (length vec)) (found e (tokenize text)) ->
  Generate normalize e text =
    Ok (match tokenize text with
        | [] => zeroVector (dim e)
        | _ => normalize (meanVector (dim e) (found e (tokenize text)))
        end).
Proof.
  intros Hfits Hall. pose proof (fits_nonneg _ _ Hfits) as Hd.
  unfold Generate. rewrite (make_f32_fits _ Hfits).
  case_bool_decide as Hnil.
  - by destruct (tokenize text).
  - simpl. rewrite accumulate_ok; [|rewrite length_replicate; lia|done]. simpl.
    destruct (tokenize text) as [|w ws] eqn:Htok; [done|].
    f_equal. f_equal. unfold meanVector, sumVectors, zeroVector.
    destruct (found e (w :: ws)) as [|vec vecs]; [done|].
    destruct (Z.ltb_spec 0 (Z.of_nat (length (vec :: vecs)))); [|simpl in *; lia].
    done.
Qed.

Lemma Generate_short e text :
  fits float32Size (dim e) = true ->
  Exists (fun vec => Z.of_nat (length vec) < dim e) (found e (tokenize text)) ->
  exists p, Generate normalize e text = Panic p.
Proof.
  intros Hfits Hex. pose proof (fits_nonneg _ _ Hfits) as Hd.
  unfold Generate. rewrite (make_f32_fits _ Hfits).
  case_bool_decide as Hnil.
  - destruct (tokenize text); [|done]. by apply Exists_nil in Hex.
  - simpl.
    destruct (accumulate_short e (tokenize text) (replicate (Z.to_nat (dim e)) f32_zero) 0)
      as [p Hp]; [rewrite length_replicate; lia | done |].
    rewrite Hp. simpl. eauto.
Qed.

Lemma Generate_refused e text :
  fits float32Size (dim e) = false -> exists p, Generate normalize e text = Panic p.
Proof.
  intros Hfits. destruct (make_f32_refused _ Hfits) as [p Hp].
  exists p. unfold Generate. rewrite Hp. by case_bool_decide.
Qed.

Lemma found_long_or_short e tokens :
  Forall (fun vec => dim e <= Z.of_nat (length vec)) (found e tokens) \/
  Exists (fun vec => Z.of_nat (length vec) < dim e) (found e tokens).
Proof.
  destruct (decide (Exists (fun vec => Z.of_nat (length vec) < dim e) (found e tokens)))
    as [Hex|Hnex]; [by right|left].
  apply not_Exists_Forall in Hnex; [|intros x; apply _].
  eapply Forall_impl; [exact Hnex|]. intros vec Hvec. simpl in Hvec. lia.
Qed.

End GenerateMore.

(** X12.  When the run time makes the vector of [dim] values and every
    vocabulary vector of a token of the text has at least [dim] values,
    [Generate] returns the zero vector for a text without tokens, and
    otherwise [normalize] of the component-wise float32 mean of the
    vectors of the tokens found. *)
Theorem generate_is_normalized_mean {rt : Runtime} {lib : strings.Lib} normalize e text :
  fits float32Size (GloVe.dim e) = true ->
  Forall (fun vec => GloVe.dim e <= Z.of_nat (length vec))
    (EmbeddingSpec.found e (GloVe.tokenize text)) ->
  GloVe.Generate normalize e text =
    Ok (match GloVe.tokenize text with
        | [] => zeroVector (GloVe.dim e)
        | _ => normalize (EmbeddingSpec.meanVector (GloVe.dim e)
                            (EmbeddingSpec.found e (GloVe.tokenize text)))
        end).
Proof. apply Generate_long. Qed.

(** X13.  [Generate] never returns an error.  It panics exactly when the
    run time refuses the vector of [dim] values (the dimension is
    negative, or beyond what can be allocated) or some token of the text
    has a vocabulary vector of fewer than [dim] values. *)
Theorem generate_panics_exactly {rt : Runtime} {lib : strings.Lib} normalize e text :
  (forall err, GloVe.Generate normalize e text <> Err err) /\
  ((exists p, GloVe.Generate normalize e text = Panic p) <->
   fits float32Size (GloVe.dim e) = false \/
   Exists (fun vec => Z.of_nat (length vec) < GloVe.dim e)
     (EmbeddingSpec.found e (GloVe.tokenize text))).
Proof.
  destruct (fits float32Size (GloVe.dim e)) eqn:Hfits.
  2:{ destruct (Generate_refused normalize e text Hfits) as [p Hp].
      rewrite Hp. split; [done|]. split; [by left | eauto]. }
  destruct (found_long_or_short e (GloVe.tokenize text)) as [Hlong|Hshort].
  - rewrite (Generate_long normalize e text Hfits Hlong).
    split; [done|]. split; [by intros [p ?]|].
    intros [?|Hex]; [done|]. exfalso.
    apply Exists_exists in Hex as (vec & Hin & Hlt).
    rewrite Forall_forall in Hlong. specialize (Hlong vec Hin). lia.
  - destruct (Generate_short normalize e text Hfits Hshort) as [p Hp].
    rewrite Hp. split; [done|]. split; [by right | eauto].
Qed.

(** X14.  With a [normalize] that keeps the length of its argument,
    every vector [Generate] returns has [Dimension()] values. *)
Theorem generate_length {rt : Runtime} {lib : strings.Lib} normalize e text v :
  (forall u, length (normalize u) = length u) ->
  GloVe.Generate normalize e text = Ok v ->
  Z.of_nat (length v) = GloVe.Dimension e.
Proof.
  intros Hnorm Hgen. unfold GloVe.Dimension.
  destruct (fits float32Size (GloVe.dim e)) eqn:Hfits.
  2:{ destruct (Generate_refused normalize e text Hfits) as [p Hp]. congruence. }
  pose proof (fits_nonneg _ _ Hfits) as Hpos.
  destruct (found_long_or_short e (GloVe.tokenize text)) as [Hlong|Hshort].
  - rewrite (Generate_long normalize e text Hfits Hlong) in Hgen. injection Hgen as <-.
    destruct (GloVe.tokenize text) as [|w ws].
    + unfold zeroVector. rewrite length_replicate. lia.
    + rewrite Hnorm. unfold EmbeddingSpec.meanVector.
      destruct (EmbeddingSpec.found e (w :: ws)) eqn:Hf.
      * by apply length_sumVectors.
      * rewrite length_fmap. rewrite <- Hf in *. by apply length_sumVectors.
  - destruct (Generate_short normalize e text Hfits Hshort) as [p Hp]. congruence.
Qed.



(** *** The vocabulary table *)

Section Vocabulary.
Import GloVe VectorFileSpec.

Context {lib : strings.Lib}.
Variable ParseFloat32 : string -> option float32.

Lemma vocabulary_lookup lines word :
  vocabulary ParseFloat32 lines !! word =
  snd <$> findLast fst (omap (entryOf ParseFloat32) lines) word.
Proof.
  unfold vocabulary.
  apply (insert_foldl_lookup fst snd (omap (entryOf ParseFloat32) lines) word).
Qed.

Lemma entryOf_Some line word vec :
  entryOf ParseFloat32 line = Some (word, vec) ->
  exists fields,
    strings.Fields line = word :: fields /\ fields <> [] /\
    vec = parsedVector ParseFloat32 fields.
Proof.
  unfold entryOf. destruct (strings.Fields line) as [|w [|s fields]]; try done.
  intros [= <- <-]. by exists (s :: fields).
Qed.

Lemma vocabulary_entry lines word vec :
  vocabulary ParseFloat32 lines !! word = Some vec ->
  exists line fields,
    line ∈ lines /\ strings.Fields line = word :: fields /\ fields <> [] /\
    vec = parsedVector ParseFloat32 fields.
Proof.
  rewrite vocabulary_lookup. intros Hv.
  destruct (findLast fst _ word) as [[w v]|] eqn:Hf; [|done].
  simpl in Hv. injection Hv as ->.
  apply findLast_Some in Hf as [Hin Hw]. simpl in Hw. subst w.
  apply list_elem_of_omap in Hin as (line & Hline & He).
  apply entryOf_Some in He as (fields & ? & ? & ?). by exists line, fields.
Qed.

Lemma insert_foldl_size {A V : Type} (key : A -> string) (val : A -> V) (l : list A) :
  (size (foldl (fun (m : gmap string V) x => <[key x := val x]> m) ∅ l) <= length l)%nat.
Proof.
  induction l as [|x l IH] using rev_ind; [simpl; by rewrite map_size_empty|].
  rewrite foldl_snoc, length_app. simpl. rewrite map_size_insert.
  destruct (_ !! _); simpl; lia.
Qed.

Lemma NewGloVeEmbedder_Ok os modelName cacheDir e :
  NewGloVeEmbedder ParseFloat32 os modelName cacheDir = Ok e ->
  exists cfg file,
    gloveModels !! modelName = Some cfg /\
    MkdirAll os cacheDir = None /\
    (NotExist os (Join os cacheDir (filename cfg)) = true ->
     Download os (url cfg) (filename cfg) cacheDir = None) /\
    Open os (Join os cacheDir (filename cfg)) = Ok file /\
    scanErr file = None /\
    vectors e = vocabulary ParseFloat32 (lines file) /\
    dim e = cfg_dim cfg.
Proof.
  unfold NewGloVeEmbedder.
  destruct (gloveModels !! modelName) as [cfg|] eqn:Hcfg; [|done].
  destruct (MkdirAll os cacheDir) eqn:Hmk; [done|].
  destruct (NotExist os _) eqn:Hne.
  - destruct (Download os _ _ _) eqn:Hdl; [done|].
    unfold loadGloVeVectors.
    destruct (Open os _) as [file| |] eqn:Ho; simpl; [|done|done].
    destruct (scanErr file) eqn:Hse; [done|].
    intros [= <-]. exists cfg, file.
    repeat (split; [first [reflexivity | assumption | (intros; congruence)]|]).
    split; [|reflexivity].
    simpl. rewrite parseLine_foldl. reflexivity.
  - unfold loadGloVeVectors.
    destruct (Open os _) as [file| |] eqn:Ho; simpl; [|done|done].
    destruct (scanErr file) eqn:Hse; [done|].
    intros [= <-]. exists cfg, file.
    repeat (split; [first [reflexivity | assumption | (intros; congruence)]|]).
    split; [|reflexivity].
    simpl. rewrite parseLine_foldl. reflexivity.
Qed.

End Vocabulary.

Section VocabularyMore.
Import GloVe VectorFileSpec.

Context {lib : strings.Lib}.
Variable ParseFloat32 : string -> option float32.

Lemma insert_foldl_absent {A V : Type} (key : A -> string) (val : A -> V)
    (l : list A) (m : gmap string V) (k : string) :
  Forall (fun x => key x <> k) l ->
  foldl (fun (m : gmap string V) x => <[key x := val x]> m) m l !! k = m !! k.
Proof.
  intros Hall. revert m. induction Hall as [|x l Hx _ IH]; intros m; simpl; [done|].
  rewrite IH. by apply lookup_insert_ne.
Qed.

Lemma vocabulary_last before line after word fields :
  strings.Fields line = word :: fields -> fields <> [] ->
  Forall (fun l => head (strings.Fields l) <> Some word) after ->
  vocabulary ParseFloat32 (before ++ line :: after) !! word =
    Some (parsedVector ParseFloat32 fields).
Proof.
  intros Hf Hne Hafter. unfold vocabulary.
  rewrite omap_app. csimpl.
  assert (entryOf ParseFloat32 line = Some (word, parsedVector ParseFloat32 fields)) as ->.
  { unfold entryOf. rewrite Hf. by destruct fields. }
  rewrite foldl_app. simpl.
  rewrite insert_foldl_absent; [by rewrite lookup_insert_eq|].
  apply Forall_forall. intros [w v] Hin. simpl.
  apply list_elem_of_omap in Hin as (l & Hl & He).
  apply entryOf_Some in He as (fs & Hfs & _ & _).
  rewrite Forall_forall in Hafter. specialize (Hafter l Hl).
  rewrite Hfs in Hafter. simpl in Hafter. congruence.
Qed.

End VocabularyMore.

(** X18.  When a word occurs on several lines of the vector file, the
    loaded table holds the vector of the last of them.  The fields of a
    line are those the library's [strings.Fields] gives. *)
Theorem vocabulary_last_line_wins {lib : strings.Lib}
    ParseFloat32 os path before line after word fields table :
  GloVe.Open os path = Ok (GloVe.mkScanned (before ++ line :: after) None) ->
  strings.Fields line = word :: fields -> fields <> [] ->
  Forall (fun l => head (strings.Fields l) <> Some word) after ->
  GloVe.loadGloVeVectors ParseFloat32 os path = Ok table ->
  table !! word = Some (VectorFileSpec.parsedVector ParseFloat32 fields).
Proof.
  intros Ho Hf Hne Hafter Hload.
  rewrite (loadGloVeVectors_spec _ _ _ _ Ho) in Hload. simpl in Hload.
  injection Hload as <-. by apply vocabulary_last.
Qed.

Lemma vocabulary_last_line_wins_witness :
  let os := Examples.cached ["hello 1 2"; "world 3"; "hello 4"; "lonely"] in
  GloVe.Open os "p" = Ok (GloVe.mkScanned (["hello 1 2"; "world 3"] ++ "hello 4" :: ["lonely"]) None) /\
  ASCII.Fields "hello 4" = "hello" :: ["4"] /\
  exists table,
    GloVe.loadGloVeVectors (lib := ASCII.lib) Examples.parseDigits os "p" = Ok table /\
    table !! "hello" = Some (VectorFileSpec.parsedVector Examples.parseDigits ["4"]).
Proof.
  split; [reflexivity|]. split; [reflexivity|].
  eexists. split; [reflexivity|].
  apply (vocabulary_last_line_wins (lib := ASCII.lib) Examples.parseDigits
           (Examples.cached ["hello 1 2"; "world 3"; "hello 4"; "lonely"]) "p"
           ["hello 1 2"; "world 3"] "hello 4" ["lonely"] "hello" ["4"]).
  - reflexivity.
  - reflexivity.
  - discriminate.
  - repeat constructor. vm_compute. discriminate.
  - reflexivity.
Defined.

(** X19.  The vocabulary size of a constructed embedder is at most the
    number of lines of its vector file. *)
Theorem vocabulary_size_bounded {lib : strings.Lib}
    ParseFloat32 os modelName cacheDir e :
  GloVe.NewGloVeEmbedder ParseFloat32 os modelName cacheDir = Ok e ->
  exists cfg file,
    GloVe.gloveModels !! modelName = Some cfg /\
    GloVe.Open os (GloVe.Join os cacheDir (GloVe.filename cfg)) = Ok file /\
    0 <= GloVe.GetVocabularySize e <= Z.of_nat (length (GloVe.lines file)).
Proof.
  intros Hnew.
  destruct (NewGloVeEmbedder_Ok _ _ _ _ _ Hnew)
    as (cfg & file & Hcfg & _ & _ & Ho & _ & Hv & _).
  exists cfg, file. split; [done|]. split; [done|].
  unfold GloVe.GetVocabularySize. rewrite Hv. unfold VectorFileSpec.vocabulary.
  split; [lia|]. apply Nat2Z.inj_le.
  etrans; [apply insert_foldl_size|]. apply length_omap_le.
Qed.

Lemma vocabulary_size_bounded_witness :
  exists e,
    GloVe.NewGloVeEmbedder (lib := ASCII.lib) Examples.parseDigits
      (Examples.cached Examples.vectorFile) "6B.50d" "cache" = Ok e /\
    0 <= GloVe.GetVocabularySize e <= Z.of_nat (length Examples.vectorFile).
Proof.
  eexists. split; [vm_compute; reflexivity|].
  destruct (vocabulary_size_bounded (lib := ASCII.lib) Examples.parseDigits (Examples.cached Examples.vectorFile)
              "6B.50d" "cache" _ eq_refl) as (cfg & file & _ & Ho & Hsize).
  injection Ho as <-. exact Hsize.
Defined.

(** X20.  [NewGloVeEmbedder] refuses every model name outside the four
    presets, whatever the state of the machine, and an embedder it
    returns has the dimension of its preset. *)
Theorem new_embedder_presets {lib : strings.Lib} ParseFloat32 os modelName cacheDir :
  (modelName ∉ ["6B.50d"; "6B.100d"; "6B.200d"; "6B.300d"] ->
   GloVe.NewGloVeEmbedder ParseFloat32 os modelName cacheDir =
     Err ("unknown GloVe model: " +:+ modelName +:+
          " (available: 6B.50d, 6B.100d, 6B.200d, 6B.300d)")) /\
  (forall e,
     GloVe.NewGloVeEmbedder ParseFloat32 os modelName cacheDir = Ok e ->
     (modelName, GloVe.Dimension e) ∈
       [("6B.50d", 50); ("6B.100d", 100); ("6B.200d", 200); ("6B.300d", 300)]).
Proof.
  split.
  - intros Hnot. unfold GloVe.NewGloVeEmbedder.
    assert (GloVe.gloveModels !! modelName = None) as ->; [|done].
    apply not_elem_of_list_to_map_1. simpl. exact Hnot.
  - intros e Hnew.
    destruct (NewGloVeEmbedder_Ok _ _ _ _ _ Hnew)
      as (cfg & file & Hcfg & _ & _ & _ & _ & _ & Hdim).
    unfold GloVe.Dimension. rewrite Hdim.
    apply elem_of_list_to_map_2 in Hcfg.
    repeat (apply elem_of_cons in Hcfg as [Hcfg|Hcfg];
            [injection Hcfg as -> ->; simpl; set_solver|]).
    by apply elem_of_nil in Hcfg.
Qed.

Lemma new_embedder_presets_witness :
  ("glove" ∉ ["6B.50d"; "6B.100d"; "6B.200d"; "6B.300d"]) /\
  GloVe.NewGloVeEmbedder (lib := ASCII.lib) Examples.parseDigits
    (Examples.cached Examples.vectorFile) "glove" "cache" =
    Err "unknown GloVe model: glove (available: 6B.50d, 6B.100d, 6B.200d, 6B.300d)".
Proof.
  assert ("glove" ∉ ["6B.50d"; "6B.100d"; "6B.200d"; "6B.300d"]) as Hnot.
  { apply (bool_decide_unpack _). vm_compute. exact I. }
  split; [exact Hnot|].
  exact (proj1 (new_embedder_presets (lib := ASCII.lib) Examples.parseDigits
                  (Examples.cached Examples.vectorFile) "glove" "cache") Hnot).
Defined.

(** X21.  When the model file is already in the cache directory,
    [NewGloVeEmbedder] does not depend on the download step. *)
Theorem cached_model_skips_download {lib : strings.Lib}
    ParseFloat32 os download modelName cacheDir :
  (forall cfg, GloVe.gloveModels !! modelName = Some cfg ->
     GloVe.NotExist os (GloVe.Join os cacheDir (GloVe.filename cfg)) = false) ->
  GloVe.NewGloVeEmbedder ParseFloat32
    (GloVe.mkOS (GloVe.MkdirAll os) (GloVe.Join os) (GloVe.NotExist os) download (GloVe.Open os))
    modelName cacheDir =
  GloVe.NewGloVeEmbedder ParseFloat32 os modelName cacheDir.
Proof.
  intros Hcached. unfold GloVe.NewGloVeEmbedder. simpl.
  destruct (GloVe.gloveModels !! modelName) as [cfg|]; [|done].
  rewrite (Hcached cfg eq_refl). done.
Qed.

Lemma cached_model_skips_download_witness :
  (forall cfg, GloVe.gloveModels !! "6B.50d" = Some cfg ->
     GloVe.NotExist (Examples.cached Examples.vectorFile)
       (GloVe.Join (Examples.cached Examples.vectorFile) "cache" (GloVe.filename cfg)) = false) /\
  GloVe.NewGloVeEmbedder (lib := ASCII.lib) Examples.parseDigits
    (GloVe.mkOS (fun _ => None) (fun dir file => dir +:+ "/" +:+ file) (fun _ => false)
       (fun _ _ _ => Some "no network")
       (fun _ => Ok (GloVe.mkScanned Examples.vectorFile None)))
    "6B.50d" "cache" =
  GloVe.NewGloVeEmbedder (lib := ASCII.lib) Examples.parseDigits
    (Examples.cached Examples.vectorFile) "6B.50d" "cache".
Proof.
  split; [reflexivity|].
  apply (cached_model_skips_download (lib := ASCII.lib) Examples.parseDigits
           (Examples.cached Examples.vectorFile) (fun _ _ _ => Some "no network")
           "6B.50d" "cache").
  reflexivity.
Defined.

(** X15.  When every line of the vector file has fewer than two fields
    or at least [Dimension() + 1] of them, [Generate] returns a vector
    for every text.  The fields of a line are those the library's
    [strings.Fields] gives. *)
Theorem well_formed_file_generate_returns {rt : Runtime} {lib : strings.Lib}
    ParseFloat32 normalize os modelName cacheDir e text :
  GloVe.NewGloVeEmbedder ParseFloat32 os modelName cacheDir = Ok e ->
  (forall path file, GloVe.Open os path = Ok file ->
     Forall (fun line =>
               (length (strings.Fields line) < 2)%nat \/
               GloVe.Dimension e + 1 <= Z.of_nat (length (strings.Fields line)))
       (GloVe.lines file)) ->
  exists v, GloVe.Generate normalize e text = Ok v.
Proof.
  intros Hnew Hfile.
  pose proof (NewGloVeEmbedder_dim _ _ _ _ _ Hnew) as Hdim.
  destruct (NewGloVeEmbedder_Ok _ _ _ _ _ Hnew)
    as (cfg & file & _ & _ & _ & Ho & _ & Hv & _).
  specialize (Hfile _ _ Ho). unfold GloVe.Dimension in Hfile.
  eexists. apply Generate_long.
  { apply fits_small; unfold float32Size, maxSmallSize; lia. }
  apply Forall_forall. intros vec Hin.
  apply list_elem_of_omap in Hin as (w & _ & Hw). rewrite Hv in Hw.
  apply vocabulary_entry in Hw as (line & fields & Hline & Hf & Hne & ->).
  rewrite Forall_forall in Hfile. specialize (Hfile line Hline).
  rewrite Hf in Hfile. simpl in Hfile.
  unfold VectorFileSpec.parsedVector. rewrite length_fmap.
  destruct fields; [done|]. simpl in *. lia.
Qed.

Lemma well_formed_file_generate_returns_witness :
  exists e,
    GloVe.NewGloVeEmbedder (lib := ASCII.lib) Examples.parseDigits
      (Examples.cached EmbedderExamples.wideFile) "6B.50d" "cache" = Ok e /\
    exists v, GloVe.Generate (rt := Examples.machine) (lib := ASCII.lib) VectorMath.normalize e "Hello!" = Ok v.
Proof.
  eexists. split; [vm_compute; reflexivity|].
  apply (well_formed_file_generate_returns (rt := Examples.machine) (lib := ASCII.lib)
           Examples.parseDigits VectorMath.normalize
           (Examples.cached EmbedderExamples.wideFile) "6B.50d" "cache").
  - vm_compute; reflexivity.
  - intros path file [= <-]. simpl. constructor; [|constructor].
    right. vm_compute. discriminate.
Defined.

Lemma normalize_length u : length (VectorMath.normalize u) = length u.
Proof.
  unfold VectorMath.normalize. destruct (SFeqb _ _); [done|]. by rewrite length_fmap.
Qed.

Lemma generate_is_normalized_mean_witness :
  fits (rt := Examples.machine) float32Size (GloVe.dim EmbedderExamples.small) = true /\
  GloVe.Generate (rt := Examples.machine) (lib := ASCII.lib) VectorMath.normalize EmbedderExamples.small
    "Hello, the big WORLD" =
    Ok (VectorMath.normalize
          (EmbeddingSpec.meanVector 2
             [ [GloVe.f32_of_int 3; GloVe.f32_of_int 4];
               [GloVe.f32_of_int 1; GloVe.f32_of_int 2; GloVe.f32_of_int 9] ])).
Proof.
  split; [vm_compute; reflexivity|].
  apply (generate_is_normalized_mean (rt := Examples.machine) (lib := ASCII.lib) VectorMath.normalize
           EmbedderExamples.small "Hello, the big WORLD").
  - vm_compute; reflexivity.
  - change (EmbeddingSpec.found EmbedderExamples.small
              (GloVe.tokenize (lib := ASCII.lib) "Hello, the big WORLD"))
      with [ [GloVe.f32_of_int 3; GloVe.f32_of_int 4];
             [GloVe.f32_of_int 1; GloVe.f32_of_int 2; GloVe.f32_of_int 9] ].
    repeat constructor; simpl; lia.
Defined.

Lemma generate_length_witness :
  (forall u, length (VectorMath.normalize u) = length u) /\
  GloVe.Generate (rt := Examples.machine) (lib := ASCII.lib) VectorMath.normalize EmbedderExamples.small "hello" =
    Ok (VectorMath.normalize [GloVe.f32_of_int 3; GloVe.f32_of_int 4]) /\
  Z.of_nat (length (VectorMath.normalize [GloVe.f32_of_int 3; GloVe.f32_of_int 4])) =
    GloVe.Dimension EmbedderExamples.small.
Proof.
  split; [exact normalize_length|]. split; [vm_compute; reflexivity|].
  apply (generate_length (rt := Examples.machine) (lib := ASCII.lib) VectorMath.normalize
           EmbedderExamples.small "hello").
  - exact normalize_length.
  - vm_compute; reflexivity.
Defined.
